(** * PDFTextExtractor: a shallow embedding of [main.py]

    The program renders the pages of a PDF to images in batches of ten,
    runs OCR over every image and joins the page texts.  Rasterisation
    ([pdf2image.convert_from_path]), OCR ([pytesseract.image_to_string]),
    [Image.save] and [os.remove] are external collaborators: they are taken
    as a record of oracles.  The extractor's own state (the [is_running]
    attribute), the file system below [output/] and the lines printed on
    standard output are threaded explicitly through a small state-and-
    exception monad. *)

From Stdlib Require Import ZArith List String Ascii Bool Lia Sorted.
From stdpp Require Import base option list strings pretty gmap fin_maps.

Local Open Scope Z_scope.
Local Open Scope string_scope.

(** ** Python values used by the program *)

(** The exception classes the program raises or tells apart.  Every
    exception carries the text that [str(e)] gives. *)
Inductive exn : Type :=
  | RuntimeError (msg : string)
  | FileNotFoundError (msg : string)
  | TimeoutError (msg : string)
  | TypeError (msg : string)
  | ValueError (msg : string)
  | Exception (msg : string).

Definition str_exn (e : exn) : string :=
  match e with
  | RuntimeError m | FileNotFoundError m | TimeoutError m
  | TypeError m | ValueError m | Exception m => m
  end.

(** [except TimeoutError] selects exactly this class. *)
Definition is_TimeoutError (e : exn) : bool :=
  match e with TimeoutError _ => true | _ => false end.

Inductive outcome (A : Type) : Type :=
  | Ok (a : A)
  | Raise (e : exn).
Arguments Ok {A} a.
Arguments Raise {A} e.

(** [sep.join(l)] *)
Definition str_join (sep : string) (l : list string) : string :=
  String.concat sep l.

Definition blank_line : string := String "010" (String "010" EmptyString).

(** [s] consists of line breaks only. *)
Fixpoint newlines_only (s : string) : bool :=
  match s with
  | EmptyString => true
  | String a r => Ascii.eqb a "010" && newlines_only r
  end.

(** [str(n)] for an int. *)
Definition str_int (n : Z) : string := pretty n.

(** [range(start, stop, step)] for a positive [step]. *)
Definition py_range (start stop step : Z) : list Z :=
  map (fun k : nat => start + step * Z.of_nat k)
      (seq 0 (Z.to_nat ((stop - start + step - 1) / step))).

(** [enumerate(l)] *)
Definition enumerate {A : Type} (l : list A) : list (nat * A) :=
  combine (seq 0 (length l)) l.

(** [l.remove(x)]: drops the first occurrence, [None] stands for the
    [ValueError] Python raises when there is none. *)
Fixpoint list_remove (x : string) (l : list string) : option (list string) :=
  match l with
  | [] => None
  | y :: l' =>
      if String.eqb x y then Some l'
      else match list_remove x l' with
           | Some r => Some (y :: r)
           | None => None
           end
  end.

(** ** [os.path] on POSIX paths *)

Definition has_sep (p : string) : bool :=
  match String.index 0 "/" p with
  | Some _ => true
  | None => false
  end.

(** The part of [p] after its last ['/']; all of [p] when it has none. *)
Fixpoint after_last_sep (p : string) : string :=
  match p with
  | EmptyString => EmptyString
  | String a r =>
      if has_sep r then after_last_sep r
      else if Ascii.eqb a "/" then r else String a r
  end.

(** [os.path.basename(p)] *)
Definition basename (p : string) : string := after_last_sep p.

Fixpoint rindex_dot (s : string) : option nat :=
  match s with
  | EmptyString => None
  | String a r =>
      match rindex_dot r with
      | Some k => Some (S k)
      | None => if Ascii.eqb a "." then Some O else None
      end
  end.

Fixpoint all_dots (s : string) : bool :=
  match s with
  | EmptyString => true
  | String a r => Ascii.eqb a "." && all_dots r
  end.

(** [os.path.splitext(p)[0]] for a [p] without a separator (the program
    only applies it to a basename): the part before the last dot, unless
    that dot is preceded by dots only. *)
Definition splitext_root (p : string) : string :=
  match rindex_dot p with
  | Some k =>
      if all_dots (String.substring 0 k p) then p
      else String.substring 0 k p
  | None => p
  end.

(** [os.path.join("output", name)] *)
Definition path_join_output (name : string) : string :=
  match name with
  | String "/" _ => name
  | _ => "output/" +:+ name
  end.

(** ** The world the program runs in *)

Section Model.

Context {Image : Type}.

Inductive content : Type :=
  | Png (img : Image)
  | Txt (s : string)
  | Blob.

Record World : Type := mkWorld {
  is_running : bool;
  fs : gmap string content;
  stdout : list string
}.

(** The collaborators.  [convert_from_path] answers with the seconds the
    call takes and what it produces; the others either succeed or raise. *)
Record Collab : Type := mkCollab {
  convert_from_path : string -> Z -> Z -> Z * outcome (list Image);
  image_to_string : Image -> outcome string;
  image_save : Image -> string -> option exn;
  os_remove : string -> option exn;
  open_write : string -> option exn
}.

(** The local variables of one run of [extract_text_from_pdf] that its
    [finally] clause still reads after an exception. *)
Record Frame : Type := mkFrame {
  world : World;
  extracted_text : list string;
  temp_image_paths : list string
}.

(** *** State and exceptions *)

Definition Py (S A : Type) : Type := S -> S * outcome A.

Definition ret {S A} (a : A) : Py S A := fun s => (s, Ok a).
Definition raise {S A} (e : exn) : Py S A := fun s => (s, Raise e).
Definition bind {S A B} (m : Py S A) (k : A -> Py S B) : Py S B :=
  fun s => match m s with
           | (s', Ok a) => k a s'
           | (s', Raise e) => (s', Raise e)
           end.

(** [try: m  except Exception as e: h e] *)
Definition try_except {S A} (m : Py S A) (h : exn -> Py S A) : Py S A :=
  fun s => match m s with
           | (s', Ok a) => (s', Ok a)
           | (s', Raise e) => h e s'
           end.

(** [try: m  finally: f]; an exception of [f] replaces the outcome of [m]. *)
Definition try_finally {S A} (m : Py S A) (f : Py S unit) : Py S A :=
  fun s => match m s with
           | (s', r) =>
               match f s' with
               | (s'', Ok _) => (s'', r)
               | (s'', Raise e) => (s'', Raise e)
               end
           end.

(** [for x in l: body x] *)
Fixpoint for_each {S A} (l : list A) (body : A -> Py S unit) : Py S unit :=
  match l with
  | [] => ret tt
  | x :: l' => bind (body x) (fun _ => for_each l' body)
  end.

End Model.

Arguments content : clear implicits.
Arguments World : clear implicits.
Arguments Collab : clear implicits.
Arguments Frame : clear implicits.

Declare Scope py_scope.
Delimit Scope py_scope with py.
Notation "x <- m ;; k" := (bind m (fun x => k))
  (at level 100, m at next level, right associativity) : py_scope.
Notation "m ;; k" := (bind m (fun _ => k))
  (at level 100, right associativity) : py_scope.

(** ** The program *)

Section Program.

Context {Image : Type}.

Local Open Scope py_scope.

Abbreviation World := (World Image).
Abbreviation Frame := (Frame Image).
Abbreviation Collab := (Collab Image).

(** *** Primitive effects *)

(** [print(line)] *)
Definition print (line : string) : Py World unit :=
  fun w => (mkWorld (is_running w) (fs w) (stdout w ++ [line]), Ok tt).

(** [self.is_running = b] *)
Definition set_running (b : bool) : Py World unit :=
  fun w => (mkWorld b (fs w) (stdout w), Ok tt).

(** [os.path.exists(p)] *)
Definition os_path_exists (p : string) : Py World bool :=
  fun w => (w, Ok (bool_decide (is_Some (fs w !! p)))).

Definition put_file (p : string) (d : content Image) (w : World) : World :=
  mkWorld (is_running w) (<[p := d]> (fs w)) (stdout w).

Definition drop_file (p : string) (w : World) : World :=
  mkWorld (is_running w) (delete p (fs w)) (stdout w).

(** [image.save(p)] *)
Definition save (c : Collab) (image : Image) (p : string) : Py World unit :=
  fun w => match image_save c image p with
           | Some e => (w, Raise e)
           | None => (put_file p (Png image) w, Ok tt)
           end.

(** [os.remove(p)] *)
Definition remove (c : Collab) (p : string) : Py World unit :=
  fun w => match fs w !! p with
           | None =>
               (w, Raise (FileNotFoundError
                            ("[Errno 2] No such file or directory: '" +:+ p +:+ "'")))
           | Some _ =>
               match os_remove c p with
               | Some e => (w, Raise e)
               | None => (drop_file p w, Ok tt)
               end
           end.

(** [with open(p, "w", encoding="utf-8") as f: f.write(text)] *)
Definition write_text (c : Collab) (p : string) (text : string) : Py World unit :=
  fun w => match open_write c p with
           | Some e => (w, Raise e)
           | None => (put_file p (Txt text) w, Ok tt)
           end.

(** [future.result(timeout=t)] for a submitted task that takes [fst task]
    seconds and then returns; for a task that never returns see
    [with_executor]. *)
Definition future_result {A} (timeout : Z) (task : Z * outcome A) : outcome A :=
  if (timeout <? fst task)%Z then Raise (TimeoutError "") else snd task.

Definition lift_outcome {S A} (r : outcome A) : Py S A := fun s => (s, r).

(** An effect on the world, run inside [extract_text_from_pdf]. *)
Definition in_world {A} (m : Py World A) : Py Frame A :=
  fun f => match m (world f) with
           | (w, r) => (mkFrame w (extracted_text f) (temp_image_paths f), r)
           end.

(** [extracted_text.append(text)] *)
Definition extracted_text_append (text : string) : Py Frame unit :=
  fun f => (mkFrame (world f) (extracted_text f ++ [text]) (temp_image_paths f), Ok tt).

(** [temp_image_paths.append(p)] *)
Definition temp_image_paths_append (p : string) : Py Frame unit :=
  fun f => (mkFrame (world f) (extracted_text f) (temp_image_paths f ++ [p]), Ok tt).

(** [temp_image_paths.remove(p)] *)
Definition temp_image_paths_remove (p : string) : Py Frame unit :=
  fun f => match list_remove p (temp_image_paths f) with
           | Some l => (mkFrame (world f) (extracted_text f) l, Ok tt)
           | None => (f, Raise (ValueError "list.remove(x): x not in list"))
           end.

(** Runs [m] with fresh, empty [extracted_text] and [temp_image_paths]. *)
Definition with_frame {A} (m : Py Frame A) : Py World A :=
  fun w => match m (mkFrame w [] []) with
           | (f, r) => (world f, r)
           end.

(** *** [extract_text_from_pdf] *)

Definition BATCH_SIZE : Z := 10.

Definition temp_image_path (page_num : Z) : string :=
  "output/temp_page_" +:+ str_int page_num +:+ ".png".

Definition cleanup_error (p : string) (e : exn) : string :=
  "Error cleaning up temporary file " +:+ p +:+ ": " +:+ str_exn e.

(** Lines 68-87: the body of [for i, image in enumerate(page_images)].
    OCR runs with [lang='ara'] and [config='--psm 3'], which are fixed and
    part of the [image_to_string] oracle. *)
Definition process_page (c : Collab) (save_images : bool) (batch_start : Z)
    (ii : nat * Image) : Py Frame unit :=
  let i := fst ii in
  let image := snd ii in
  let page_num := batch_start + Z.of_nat i in
  let temp_image_path := temp_image_path page_num in
  in_world (print ("Saving temporary image: " +:+ temp_image_path)) ;;
  in_world (save c image temp_image_path) ;;
  temp_image_paths_append temp_image_path ;;
  text <- lift_outcome (image_to_string c image) ;;
  in_world (print ("Extracted text from page " +:+ str_int page_num)) ;;
  extracted_text_append text ;;
  present <- in_world (os_path_exists temp_image_path) ;;
  if negb save_images && present then
    try_except
      (in_world (remove c temp_image_path) ;;
       temp_image_paths_remove temp_image_path)
      (fun e => in_world (print (cleanup_error temp_image_path e)))
  else ret tt.

(** Lines 52-87: the body of [for batch_start in range(...)]. *)
Definition process_batch (c : Collab) (pdf_path : string) (save_images : bool)
    (total_pages : Z) (batch_start : Z) : Py Frame unit :=
  let end_page := Z.min (batch_start + BATCH_SIZE - 1) total_pages in
  in_world (print ("Processing batch: pages " +:+ str_int batch_start
                   +:+ " to " +:+ str_int end_page)) ;;
  page_images <- lift_outcome
    (future_result 30 (convert_from_path c pdf_path batch_start end_page)) ;;
  match page_images with
  | [] => in_world (print ("No images generated for pages "
                           +:+ str_int batch_start +:+ "-" +:+ str_int end_page))
  | _ => for_each (enumerate page_images) (process_page c save_images batch_start)
  end.

(** Lines 38-49. *)
Definition determine_total_pages (c : Collab) (pdf_path : string)
    (max_pages : option Z) (start_page : Z) : Py Frame Z :=
  match max_pages with
  | None =>
      first_page <- lift_outcome
        (future_result 10 (convert_from_path c pdf_path 1 1)) ;;
      match first_page with
      | [] => raise (Exception "Could not read the PDF file")
      | _ => ret (Z.of_nat (length first_page))
      end
  | Some m => ret (m + start_page - 1)
  end.

(** Lines 37-87: the body of the inner [try]. *)
Definition processing (c : Collab) (pdf_path : string) (max_pages : option Z)
    (start_page : Z) (save_images : bool) : Py Frame unit :=
  total_pages <- determine_total_pages c pdf_path max_pages start_page ;;
  in_world (print ("Processing until page " +:+ str_int total_pages
                   +:+ " in batches of " +:+ str_int BATCH_SIZE)) ;;
  for_each (py_range start_page (total_pages + 1) BATCH_SIZE)
           (process_batch c pdf_path save_images total_pages).

Definition timed_out : exn :=
  Exception "PDF processing timed out. The file might be too large or corrupt.".

(** Lines 89-94: [except TimeoutError] and [except Exception]. *)
Definition on_error (e : exn) : Py Frame unit :=
  if is_TimeoutError e then
    in_world (print ("Timeout error: " +:+ str_exn e)) ;;
    raise timed_out
  else
    in_world (print ("Error processing PDF: " +:+ str_exn e)) ;;
    raise e.

(** Lines 99-104: the body of [for temp_path in temp_image_paths]. *)
Definition cleanup_one (c : Collab) (temp_path : string) : Py Frame unit :=
  present <- in_world (os_path_exists temp_path) ;;
  if (present : bool) then
    try_except (in_world (remove c temp_path))
               (fun e => in_world (print (cleanup_error temp_path e)))
  else ret tt.

(** Lines 96-104: the inner [finally]. *)
Definition cleanup (c : Collab) (save_images : bool) : Py Frame unit :=
  if save_images then ret tt
  else fun f => for_each (temp_image_paths f) (cleanup_one c) f.

(** Lines 28-106: the body of the outer [try]. *)
Definition extract_body (c : Collab) (pdf_path : string) (max_pages : option Z)
    (start_page : Z) (save_images : bool) : Py World (list string) :=
  print ("Extracting text from PDF: " +:+ pdf_path) ;;
  present <- os_path_exists pdf_path ;;
  if negb present then
    raise (FileNotFoundError ("PDF file not found: " +:+ pdf_path))
  else
    with_frame
      (try_finally
         (try_except (processing c pdf_path max_pages start_page save_images)
                     on_error)
         (cleanup c save_images) ;;
       fun f => (f, Ok (extracted_text f))).

Definition busy : exn :=
  RuntimeError "Please wait for the previous extraction to finish.".

Definition extract_text_from_pdf (c : Collab) (pdf_path : string)
    (max_pages : option Z) (start_page : Z) (save_images : bool)
    : Py World (list string) :=
  fun w =>
    if is_running w then (w, Raise busy)
    else
      (set_running true ;;
       try_finally (extract_body c pdf_path max_pages start_page save_images)
                   (set_running false)) w.

(** *** [get_text_from_pdf] *)

Definition get_text_from_pdf (c : Collab) (pdf_path : string)
    (max_pages : option Z) (start_page : Z) : Py World string :=
  text_list <- extract_text_from_pdf c pdf_path max_pages start_page false ;;
  ret (str_join blank_line text_list).

(** *** [convert_to_text] *)

Definition CHUNK_SIZE : Z := 10.

Definition failed : string := "Failed to generate study guide.".

(** Lines 164-173: the loop over the chunk starts, with the locals
    [all_text] and [chunk_number] it updates. *)
Fixpoint chunk_loop (c : Collab) (pdf_path : string) (max_pages : Z)
    (starts : list Z) (all_text : list string) (chunk_number : Z)
    : Py World (list string * Z) :=
  match starts with
  | [] => ret (all_text, chunk_number)
  | start_page :: rest =>
      let end_page := Z.min (start_page + CHUNK_SIZE - 1) max_pages in
      print (String "010" ("Processing pages " +:+ str_int start_page
                           +:+ " to " +:+ str_int end_page)) ;;
      chunk_text <- get_text_from_pdf c pdf_path (Some CHUNK_SIZE) start_page ;;
      chunk_loop c pdf_path max_pages rest (all_text ++ [chunk_text])
                 (chunk_number + 1)
  end.

Definition output_path (pdf_path : string) : string :=
  path_join_output (splitext_root (basename pdf_path) +:+ "_output.txt").

(** [max_pages] defaults to [None], for which [max_pages + 1] raises. *)
Definition convert_to_text (c : Collab) (pdf_path : string)
    (max_pages : option Z) : Py World string :=
  match max_pages with
  | None =>
      raise (TypeError "unsupported operand type(s) for +: 'NoneType' and 'int'")
  | Some max_pages =>
      r <- chunk_loop c pdf_path max_pages
             (py_range 1 (max_pages + 1) CHUNK_SIZE) [] 1 ;;
      match fst r with
      | [] => ret failed
      | all_text =>
          let final_text := str_join blank_line all_text in
          write_text c (output_path pdf_path) final_text ;;
          ret final_text
      end
  end.

End Program.

(** ** What a run produces, as a function of the collaborators

    The definitions below restate the text result of
    [extract_text_from_pdf] without the world; [extract_text_from_pdf_unfold]
    shows that the program computes them.  They are followed by the
    invariants of the run and by the conditions the claims are stated
    under. *)

Section Reference.

Context {Image : Type}.

Abbreviation Collab := (Collab Image).

(** What the caller sees of an exception that leaves the inner [try]. *)
Definition reraised (e : exn) : exn :=
  if is_TimeoutError e then timed_out else e.

(** The texts of the images of one batch, or the first exception of
    [image.save] or of the OCR engine. *)
Fixpoint page_texts (c : Collab) (batch_start : Z) (l : list (nat * Image))
    : outcome (list string) :=
  match l with
  | [] => Ok []
  | ii :: l' =>
      match image_save c (snd ii)
                       (temp_image_path (batch_start + Z.of_nat (fst ii))) with
      | Some e => Raise e
      | None =>
          match image_to_string c (snd ii) with
          | Raise e => Raise e
          | Ok text =>
              match page_texts c batch_start l' with
              | Ok ts => Ok (text :: ts)
              | Raise e => Raise e
              end
          end
      end
  end.

(** The call that rasterises the batch starting at [batch_start]. *)
Definition batch_images (c : Collab) (pdf_path : string) (total_pages : Z)
    (batch_start : Z) : outcome (list Image) :=
  future_result 30
    (convert_from_path c pdf_path batch_start
       (Z.min (batch_start + BATCH_SIZE - 1) total_pages)).

(** The texts of all batches in order, or the first exception. *)
Fixpoint batch_texts (c : Collab) (pdf_path : string) (total_pages : Z)
    (starts : list Z) : outcome (list string) :=
  match starts with
  | [] => Ok []
  | batch_start :: rest =>
      match batch_images c pdf_path total_pages batch_start with
      | Raise e => Raise e
      | Ok page_images =>
          match page_texts c batch_start (enumerate page_images) with
          | Raise e => Raise e
          | Ok ts =>
              match batch_texts c pdf_path total_pages rest with
              | Ok ts' => Ok (ts ++ ts')%list
              | Raise e => Raise e
              end
          end
      end
  end.

(** The last page to process (lines 38-49), or the exception of the probe. *)
Definition upper_bound (c : Collab) (pdf_path : string) (max_pages : option Z)
    (start_page : Z) : outcome Z :=
  match max_pages with
  | None =>
      match future_result 10 (convert_from_path c pdf_path 1 1) with
      | Raise e => Raise e
      | Ok [] => Raise (Exception "Could not read the PDF file")
      | Ok first_page => Ok (Z.of_nat (length first_page))
      end
  | Some m => Ok (m + start_page - 1)
  end.

Definition batch_starts (start_page total_pages : Z) : list Z :=
  py_range start_page (total_pages + 1) BATCH_SIZE.

(** What the inner [try] body ends with for an existing file. *)
Definition inner_outcome (c : Collab) (pdf_path : string)
    (max_pages : option Z) (start_page : Z) : outcome (list string) :=
  match upper_bound c pdf_path max_pages start_page with
  | Raise e => Raise e
  | Ok total_pages =>
      batch_texts c pdf_path total_pages (batch_starts start_page total_pages)
  end.

(** What an idle extractor returns for an existing file. *)
Definition extract_outcome (c : Collab) (pdf_path : string)
    (max_pages : option Z) (start_page : Z) : outcome (list string) :=
  match inner_outcome c pdf_path max_pages start_page with
  | Raise e => Raise (reraised e)
  | Ok ts => Ok ts
  end.

(** The line printed for a batch without images. *)
Definition no_images_warning (total_pages batch_start : Z) : string :=
  "No images generated for pages " +:+ str_int batch_start +:+ "-"
  +:+ str_int (Z.min (batch_start + BATCH_SIZE - 1) total_pages).

(** The page numbers the program gives to the images of the batches, each
    with its image. *)
Definition numbered_pages (c : Collab) (pdf_path : string) (total_pages : Z)
    (starts : list Z) : list (Z * Image) :=
  flat_map
    (fun batch_start =>
       match batch_images c pdf_path total_pages batch_start with
       | Ok page_images =>
           map (fun ii : nat * Image => (batch_start + Z.of_nat (fst ii), snd ii))
               (enumerate page_images)
       | Raise _ => []
       end)
    starts.

(** A path the program may save a page image to. *)
Definition is_temp_image_path (p : string) : Prop :=
  exists page_num : Z, p = temp_image_path page_num.

(** The world changes of [extract_text_from_pdf] between the two
    assignments to [is_running]: printed lines, saved page images and
    removed page images. *)
Inductive evolves (w : World Image) : World Image -> Prop :=
  | evolves_refl : evolves w w
  | evolves_print w1 line :
      evolves w w1 -> evolves w (fst (print line w1))
  | evolves_save w1 page_num image :
      evolves w w1 -> evolves w (put_file (temp_image_path page_num) (Png image) w1)
  | evolves_remove w1 page_num :
      evolves w w1 -> evolves w (drop_file (temp_image_path page_num) w1).

(** What [extract_text_from_pdf] maintains between two pages, with respect to
    the file system [fs w0] it started from: [temp_image_paths] holds page
    image paths only, and every file that differs from the start and is
    still there is listed in it. *)
Definition tracked (w0 : World Image) (f : Frame Image) : Prop :=
  Forall is_temp_image_path (temp_image_paths f) /\
  forall p : string,
    fs (world f) !! p = fs w0 !! p \/ fs (world f) !! p = None
    \/ p ∈ temp_image_paths f.

(** [m] keeps the state inside [P], whatever it returns or raises. *)
Definition preserves {S A} (P : S -> Prop) (m : Py S A) : Prop :=
  forall s, P s -> P (fst (m s)).

(** The frame the inner [try ... except] leaves to its [finally] clause. *)
Definition frame_before_cleanup (c : Collab) (pdf_path : string)
    (max_pages : option Z) (start_page : Z) (save_images : bool)
    (w : World Image) : Frame Image :=
  fst (try_except (processing c pdf_path max_pages start_page save_images)
         on_error
         (mkFrame (fst (print ("Extracting text from PDF: " +:+ pdf_path)
                              (fst (set_running true w))))
                  [] [])).

(** The line printed at the start of the first chunk. *)
Definition first_chunk_line (max_pages : Z) : string :=
  String "010" ("Processing pages " +:+ str_int 1 +:+ " to "
                +:+ str_int (Z.min (1 + CHUNK_SIZE - 1) max_pages)).

(** The collaborators [c] with another [os.remove]. *)
Definition with_os_remove (c : Collab) (r : string -> option exn) : Collab :=
  mkCollab (convert_from_path c) (image_to_string c) (image_save c) r
           (open_write c).

(** The probe of page 1 exceeds its ten seconds. *)
Definition probe_times_out (c : Collab) (pdf_path : string)
    (max_pages : option Z) : Prop :=
  max_pages = None /\ (10 < fst (convert_from_path c pdf_path 1 1))%Z.

(** The batches [finished] went through and the rasterisation of the next
    one, [batch_start], exceeds its thirty seconds. *)
Definition batch_times_out (c : Collab) (pdf_path : string)
    (max_pages : option Z) (start_page : Z) : Prop :=
  exists (total_pages : Z) (finished : list Z) (batch_start : Z) (rest : list Z)
         (ts : list string),
    upper_bound c pdf_path max_pages start_page = Ok total_pages
    /\ batch_starts start_page total_pages = (finished ++ batch_start :: rest)%list
    /\ batch_texts c pdf_path total_pages finished = Ok ts
    /\ (30 < fst (convert_from_path c pdf_path batch_start
                     (Z.min (batch_start + BATCH_SIZE - 1) total_pages)))%Z.

(** The pages [first..last]. *)
Definition pages_between (first last : Z) : list Z :=
  map (fun k : nat => (first + Z.of_nat k)%Z)
      (seq 0 (Z.to_nat (last - first + 1))).

(** [pdf_path] is a document of [n] pages for the rasteriser: a call for the
    pages [first..last] answers within thirty seconds with the images
    [page k] of the pages of that range the document has. *)
Definition renders (c : Collab) (pdf_path : string) (n : Z)
    (page : Z -> Image) : Prop :=
  forall first last : Z,
    exists seconds : Z,
      (seconds <= 30)%Z
      /\ convert_from_path c pdf_path first last
         = (seconds, Ok (map page (pages_between (Z.max first 1) (Z.min last n)))).

End Reference.

(** ** Test doubles *)

(** A document of [n] pages whose page [k] rasterises to the image [k] in one
    second; as pdf2image does, the requested range is clipped to the
    document.  OCR of page [k] gives [ocr k]; nothing fails. *)
Definition document (n : Z) (ocr : Z -> string) : Collab Z :=
  {| convert_from_path := fun _ first last =>
       (1, Ok (pages_between (Z.max first 1) (Z.min last n)));
     image_to_string := fun k => Ok (ocr k);
     image_save := fun _ _ => None;
     os_remove := fun _ => None;
     open_write := fun _ => None |}.

(** The same document on a file system where no file can be removed. *)
Definition document_stuck (n : Z) (ocr : Z -> string) : Collab Z :=
  with_os_remove (document n ocr) (fun _ => Some (Exception "Permission denied")).

(** A file the rasteriser takes [seconds] to answer for, whatever the range. *)
Definition slow_document (seconds : Z) : Collab Z :=
  {| convert_from_path := fun _ first last => (seconds, Ok (pages_between first last));
     image_to_string := fun k => Ok "";
     image_save := fun _ _ => None;
     os_remove := fun _ => None;
     open_write := fun _ => None |}.

(** A file the rasteriser yields no image for. *)
Definition blank_document : Collab Z :=
  {| convert_from_path := fun _ _ _ => (1, Ok []);
     image_to_string := fun k => Ok "";
     image_save := fun _ _ => None;
     os_remove := fun _ => None;
     open_write := fun _ => None |}.

Definition page_text (k : Z) : string := "page " +:+ str_int k.

(** An idle extractor next to [book.pdf], with an empty [output/]. *)
Definition idle_world : World Z :=
  mkWorld false (<["book.pdf" := Blob]> ∅) [].

(** The same while an extraction is in flight. *)
Definition busy_world : World Z :=
  mkWorld true (<["book.pdf" := Blob]> ∅) [].

(** ** Definitions for further properties *)

(** The line [on_error] prints for [e]. *)
Definition error_line (e : exn) : string :=
  if is_TimeoutError e then "Timeout error: " +:+ str_exn e
  else "Error processing PDF: " +:+ str_exn e.

(** The files after the page images [pages] were saved in order, each under
    the path of its page number. *)
Definition saved_images {Image} (files : gmap string (content Image))
    (pages : list (Z * Image)) : gmap string (content Image) :=
  foldl (λ m x, <[temp_image_path x.1 := Png x.2]> m) files pages.

(** A three-page document whose second page the OCR engine cannot read. *)
Definition unreadable_document : Collab Z :=
  {| convert_from_path := convert_from_path (document 3 page_text);
     image_to_string := fun k =>
       if (k =? 2)%Z then Raise (Exception "tesseract failed")
       else Ok (page_text k);
     image_save := fun _ _ => None;
     os_remove := fun _ => None;
     open_write := fun _ => None |}.

(** *** [main] *)

Section Entry.
Context {Image : Type}.
Local Open Scope py_scope.

(** [input(prompt)]: writes the prompt and returns the line the user types,
    here [answer]. *)
Definition input (prompt answer : string) : Py (World Image) string :=
  print prompt ;; ret answer.

(** [PDFTextExtractor()]: the new extractor starts idle. *)
Definition new_extractor : Py (World Image) unit := set_running false.

Definition all_done : string :=
  "All done. Thank you for using Shaykh Salih Technologies".

(** Lines 190-195.  [int] is Python's conversion of the typed line to an
    integer, which raises [ValueError] on a line that is no number. *)
Definition main (c : Collab Image) (int : string -> outcome Z)
    (path_answer pages_answer : string) : Py (World Image) unit :=
  pdf_path <- input "Enter the path to the PDF file: " path_answer ;;
  line <- input "Enter the maximum number of pages to process: " pages_answer ;;
  max_pages <- lift_outcome (int line) ;;
  new_extractor ;;
  convert_to_text c pdf_path (Some max_pages) ;;
  print all_done.

End Entry.

(** ** The run as an observer sees it

    The embedding above gives the world a call ends in.  Two things about
    [extract_text_from_pdf] can only be seen while the call is under way: the
    value of [is_running] between its two assignments, and a call that never
    ends because the rasteriser never returns.  The module below embeds
    lines 11-109 a second time, statement by statement as above, in a monad
    that also records the world after every effect and lets a computation
    hang.  [extract_text_from_pdf_observed] shows that, when every
    rasterisation returns, it ends as the embedding above does. *)

Section Observing.

Context {Image : Type}.

Abbreviation World := (World Image).
Abbreviation Frame := (Frame Image).
Abbreviation Collab := (Collab Image).

(** The worlds gone through, in order, and how the computation ends: [None]
    when it never ends. *)
Definition Obs (S A : Type) : Type :=
  S -> list World * option (S * outcome A).

Definition oret {S A} (a : A) : Obs S A := fun s => ([], Some (s, Ok a)).
Definition oraise {S A} (e : exn) : Obs S A := fun s => ([], Some (s, Raise e)).
Definition olift {S A} (r : outcome A) : Obs S A := fun s => ([], Some (s, r)).

Definition obind {S A B} (m : Obs S A) (k : A -> Obs S B) : Obs S B :=
  fun s => match m s with
           | (t, Some (s', Ok a)) => (t ++ fst (k a s'), snd (k a s'))%list
           | (t, Some (s', Raise e)) => (t, Some (s', Raise e))
           | (t, None) => (t, None)
           end.

(** [try: m  except Exception as e: h e] *)
Definition otry_except {S A} (m : Obs S A) (h : exn -> Obs S A) : Obs S A :=
  fun s => match m s with
           | (t, Some (s', Ok a)) => (t, Some (s', Ok a))
           | (t, Some (s', Raise e)) => (t ++ fst (h e s'), snd (h e s'))%list
           | (t, None) => (t, None)
           end.

(** [try: m  finally: f]; when [m] never ends, [f] never runs. *)
Definition otry_finally {S A} (m : Obs S A) (f : Obs S unit) : Obs S A :=
  fun s => match m s with
           | (t, Some (s', r)) =>
               match f s' with
               | (t', Some (s'', Ok _)) => (t ++ t', Some (s'', r))%list
               | (t', Some (s'', Raise e)) => (t ++ t', Some (s'', Raise e))%list
               | (t', None) => (t ++ t', None)%list
               end
           | (t, None) => (t, None)
           end.

(** [for x in l: body x] *)
Fixpoint ofor_each {S A} (l : list A) (body : A -> Obs S unit) : Obs S unit :=
  match l with
  | [] => oret tt
  | x :: l' => obind (body x) (fun _ => ofor_each l' body)
  end.

(** An effect on the world; the world it leaves is recorded. *)
Definition effect {A} (m : Py World A) : Obs World A :=
  fun w => ([fst (m w)], Some (m w)).

(** An update of the local variables of the call. *)
Definition local {A} (m : Py Frame A) : Obs Frame A :=
  fun f => ([], Some (m f)).

Definition oin_world {A} (m : Obs World A) : Obs Frame A :=
  fun f => match m (world f) with
           | (t, Some (w, r)) =>
               (t, Some (mkFrame w (extracted_text f) (temp_image_paths f), r))
           | (t, None) => (t, None)
           end.

Definition owith_frame {A} (m : Obs Frame A) : Obs World A :=
  fun w => match m (mkFrame w [] []) with
           | (t, Some (f, r)) => (t, Some (world f, r))
           | (t, None) => (t, None)
           end.

(** Lines 39-44 and 57-62:
    [with ThreadPoolExecutor() as executor: ... future.result(timeout=t)].
    Leaving the block joins the worker, also when [future.result] raised
    [TimeoutError]; so a worker that returns gives [future_result], and with
    a worker that never returns ([returned = false]) the block is never
    left. *)
Definition with_executor {S A} (timeout : Z) (returned : bool)
    (task : Z * outcome A) : Obs S A :=
  fun s => if returned then ([], Some (s, future_result timeout task))
           else ([], None).

End Observing.

Arguments Obs : clear implicits.

Declare Scope obs_scope.
Delimit Scope obs_scope with obs.
Notation "x <- m ;; k" := (obind m (fun x => k))
  (at level 100, m at next level, right associativity) : obs_scope.
Notation "m ;; k" := (obind m (fun _ => k))
  (at level 100, right associativity) : obs_scope.

Module Observed.

Section Observed.

Context {Image : Type}.

Abbreviation World := (World Image).
Abbreviation Frame := (Frame Image).
Abbreviation Collab := (Collab Image).

Local Open Scope obs_scope.

(** [returns pdf_path first last] tells whether the rasteriser returns at all
    for that range. *)
Variable returns : string -> Z -> Z -> bool.

(** Lines 68-87. *)
Definition process_page (c : Collab) (save_images : bool) (batch_start : Z)
    (ii : nat * Image) : Obs Image Frame unit :=
  let i := fst ii in
  let image := snd ii in
  let page_num := batch_start + Z.of_nat i in
  let temp_image_path := temp_image_path page_num in
  oin_world (effect (print ("Saving temporary image: " +:+ temp_image_path))) ;;
  oin_world (effect (save c image temp_image_path)) ;;
  local (temp_image_paths_append temp_image_path) ;;
  text <- olift (image_to_string c image) ;;
  oin_world (effect (print ("Extracted text from page " +:+ str_int page_num))) ;;
  local (extracted_text_append text) ;;
  present <- oin_world (effect (os_path_exists temp_image_path)) ;;
  if negb save_images && present then
    otry_except
      (oin_world (effect (remove c temp_image_path)) ;;
       local (temp_image_paths_remove temp_image_path))
      (fun e => oin_world (effect (print (cleanup_error temp_image_path e))))
  else oret tt.

(** Lines 52-87. *)
Definition process_batch (c : Collab) (pdf_path : string) (save_images : bool)
    (total_pages : Z) (batch_start : Z) : Obs Image Frame unit :=
  let end_page := Z.min (batch_start + BATCH_SIZE - 1) total_pages in
  oin_world (effect (print ("Processing batch: pages " +:+ str_int batch_start
                            +:+ " to " +:+ str_int end_page))) ;;
  page_images <- with_executor 30 (returns pdf_path batch_start end_page)
                   (convert_from_path c pdf_path batch_start end_page) ;;
  match page_images with
  | [] => oin_world (effect (print ("No images generated for pages "
                                    +:+ str_int batch_start +:+ "-"
                                    +:+ str_int end_page)))
  | _ => ofor_each (enumerate page_images)
                   (process_page c save_images batch_start)
  end.

(** Lines 38-49. *)
Definition determine_total_pages (c : Collab) (pdf_path : string)
    (max_pages : option Z) (start_page : Z) : Obs Image Frame Z :=
  match max_pages with
  | None =>
      first_page <- with_executor 10 (returns pdf_path 1 1)
                      (convert_from_path c pdf_path 1 1) ;;
      match first_page with
      | [] => oraise (Exception "Could not read the PDF file")
      | _ => oret (Z.of_nat (length first_page))
      end
  | Some m => oret (m + start_page - 1)
  end.

(** Lines 37-87. *)
Definition processing (c : Collab) (pdf_path : string) (max_pages : option Z)
    (start_page : Z) (save_images : bool) : Obs Image Frame unit :=
  total_pages <- determine_total_pages c pdf_path max_pages start_page ;;
  oin_world (effect (print ("Processing until page " +:+ str_int total_pages
                            +:+ " in batches of " +:+ str_int BATCH_SIZE))) ;;
  ofor_each (py_range start_page (total_pages + 1) BATCH_SIZE)
            (process_batch c pdf_path save_images total_pages).

(** Lines 89-94. *)
Definition on_error (e : exn) : Obs Image Frame unit :=
  if is_TimeoutError e then
    oin_world (effect (print ("Timeout error: " +:+ str_exn e))) ;;
    oraise timed_out
  else
    oin_world (effect (print ("Error processing PDF: " +:+ str_exn e))) ;;
    oraise e.

(** Lines 99-104. *)
Definition cleanup_one (c : Collab) (temp_path : string) : Obs Image Frame unit :=
  present <- oin_world (effect (os_path_exists temp_path)) ;;
  if (present : bool) then
    otry_except (oin_world (effect (remove c temp_path)))
                (fun e => oin_world (effect (print (cleanup_error temp_path e))))
  else oret tt.

(** Lines 96-104. *)
Definition cleanup (c : Collab) (save_images : bool) : Obs Image Frame unit :=
  if save_images then oret tt
  else fun f => ofor_each (temp_image_paths f) (cleanup_one c) f.

(** Lines 28-106. *)
Definition extract_body (c : Collab) (pdf_path : string) (max_pages : option Z)
    (start_page : Z) (save_images : bool) : Obs Image World (list string) :=
  effect (print ("Extracting text from PDF: " +:+ pdf_path)) ;;
  present <- effect (os_path_exists pdf_path) ;;
  if negb present then
    oraise (FileNotFoundError ("PDF file not found: " +:+ pdf_path))
  else
    owith_frame
      (otry_finally
         (otry_except (processing c pdf_path max_pages start_page save_images)
                      on_error)
         (cleanup c save_images) ;;
       local (fun f => (f, Ok (extracted_text f)))).

(** Lines 23-109. *)
Definition extract_text_from_pdf (c : Collab) (pdf_path : string)
    (max_pages : option Z) (start_page : Z) (save_images : bool)
    : Obs Image World (list string) :=
  fun w =>
    if is_running w then ([], Some (w, Raise busy))
    else
      (effect (set_running true) ;;
       otry_finally
         (extract_body c pdf_path max_pages start_page save_images)
         (effect (set_running false))) w.

End Observed.

End Observed.

(** The observed computation [o] ends as [m] does. *)
Definition agrees {Image S A} (o : Obs Image S A) (m : Py S A) : Prop :=
  forall s, snd (o s) = Some (m s).

(** Every world [o] goes through and the one it ends in satisfy [P], when
    the one it starts in does. *)
Definition keeps {Image S A} (P : World Image -> Prop) (proj : S -> World Image)
    (o : Obs Image S A) : Prop :=
  forall s, P (proj s) ->
    Forall P (fst (o s))
    /\ forall s' r, snd (o s) = Some (s', r) -> P (proj s').

(** The flag is set. *)
Definition flag_set {Image} (w : World Image) : Prop := is_running w = true.

(** ** Proofs *)

Local Open Scope list_scope.
Local Open Scope Z_scope.

Section Proofs.
Context {Image : Type}.
Abbreviation World := (World Image).
Abbreviation Frame := (Frame Image).
Abbreviation Collab := (Collab Image).

Ltac py_unfold :=
  unfold bind, ret, raise, try_except, try_finally, in_world, lift_outcome,
    print, set_running, os_path_exists, save, remove, write_text,
    extracted_text_append, temp_image_paths_append, temp_image_paths_remove,
    with_frame in *.

Lemma for_each_inv {S A} (P : S → Prop) (body : A → Py S unit) (l : list A) :
  (∀ x s, x ∈ l → P s → P (fst (body x s))) →
  ∀ s, P s → P (fst (for_each l body s)).
Proof.
  induction l as [|x l IH]; intros Hb s Hs; simpl; [done|].
  unfold bind. specialize (Hb x s (list_elem_of_here _ _) Hs) as Hx.
  destruct (body x s) as [s' [[]|e]]; simpl in *; [|done].
  apply IH; [|done]. intros y t Hy. apply Hb. by apply list_elem_of_further.
Qed.

Lemma list_remove_spec x l l' :
  list_remove x l = Some l' →
  (∀ y, y ∈ l' → y ∈ l) ∧ (∀ y, y ≠ x → y ∈ l → y ∈ l').
Proof.
  revert l'. induction l as [|z l IH]; intros l' H; simpl in H; [done|].
  destruct (String.eqb x z) eqn:E.
  - apply String.eqb_eq in E as ->. injection H as <-. split.
    + intros y Hy. by apply list_elem_of_further.
    + intros y Hne Hy. apply elem_of_cons in Hy as [->|Hy]; done.
  - destruct (list_remove x l) as [r|]; [|done]. injection H as <-.
    destruct (IH r eq_refl) as [I1 I2]. split.
    + intros y Hy. apply elem_of_cons in Hy as [->|Hy];
        [apply list_elem_of_here | apply list_elem_of_further; auto].
    + intros y Hne Hy. apply elem_of_cons in Hy as [->|Hy];
        [apply list_elem_of_here | apply list_elem_of_further; auto].
Qed.

Lemma list_remove_present x l : x ∈ l → is_Some (list_remove x l).
Proof.
  induction l as [|z l IH]; intros H; [by apply elem_of_nil in H|].
  simpl. destruct (String.eqb x z) eqn:E; [eauto|].
  apply elem_of_cons in H as [->|H]; [by rewrite String.eqb_refl in E|].
  destruct (IH H) as [r ->]. eauto.
Qed.

Lemma preserves_ret {S A} (P : S → Prop) (a : A) : preserves P (ret a).
Proof. by intros s Hs. Qed.

Lemma preserves_raise {S A} (P : S → Prop) e : preserves P (@raise S A e).
Proof. by intros s Hs. Qed.

Lemma preserves_lift_outcome {S A} (P : S → Prop) (r : outcome A) :
  preserves P (lift_outcome r).
Proof. by intros s Hs. Qed.

Lemma preserves_bind {S A B} (P : S → Prop) (m : Py S A) (k : A → Py S B) :
  preserves P m → (∀ a, preserves P (k a)) → preserves P (bind m k).
Proof.
  intros Hm Hk s Hs. unfold bind. specialize (Hm s Hs).
  destruct (m s) as [s' [a|e]]; simpl in *; [by apply Hk | done].
Qed.

Lemma preserves_try_except {S A} (P : S → Prop) (m : Py S A) h :
  preserves P m → (∀ e, preserves P (h e)) → preserves P (try_except m h).
Proof.
  intros Hm Hh s Hs. unfold try_except. specialize (Hm s Hs).
  destruct (m s) as [s' [a|e]]; simpl in *; [done | by apply Hh].
Qed.

Lemma preserves_try_finally {S A} (P : S → Prop) (m : Py S A) fin :
  preserves P m → preserves P fin → preserves P (try_finally m fin).
Proof.
  intros Hm Hf s Hs. unfold try_finally. specialize (Hm s Hs).
  destruct (m s) as [s' r]; simpl in *. specialize (Hf s' Hm).
  by destruct (fin s') as [s'' [[]|e]].
Qed.

Lemma preserves_for_each {S A} (P : S → Prop) (body : A → Py S unit) l :
  (∀ x, preserves P (body x)) → preserves P (for_each l body).
Proof.
  intros Hb. induction l as [|x l IH]; simpl.
  - apply preserves_ret.
  - apply preserves_bind; [apply Hb | by intros _].
Qed.

Lemma preserves_in_world {A} (Q : World → Prop) (m : Py World A) :
  preserves Q m → preserves (λ f : Frame, Q (world f)) (in_world m).
Proof.
  intros Hm f Hf. unfold in_world. specialize (Hm _ Hf).
  by destruct (m (world f)) as [w r].
Qed.

Lemma evolves_trans (w0 w1 w2 : World) :
  evolves w0 w1 → evolves w1 w2 → evolves w0 w2.
Proof. intros H1 H2. induction H2; [done | by constructor..]. Qed.

Lemma print_evolves (w0 : World) line : preserves (evolves w0) (print line).
Proof. intros w Hw. by apply evolves_print. Qed.

Lemma os_path_exists_evolves (w0 : World) p : preserves (evolves w0) (os_path_exists p).
Proof. by intros w Hw. Qed.

Lemma save_evolves (c : Collab) (w0 : World) image page_num :
  preserves (evolves w0) (save c image (temp_image_path page_num)).
Proof.
  intros w Hw. unfold save. destruct (image_save c image _); [done|].
  by apply evolves_save.
Qed.

Lemma remove_evolves (c : Collab) (w0 : World) p :
  is_temp_image_path p → preserves (evolves w0) (remove c p).
Proof.
  intros [n ->] w Hw. unfold remove. destruct (fs w !! _); [|done].
  destruct (os_remove c _); [done|]. by apply evolves_remove.
Qed.

Lemma process_page_evolves (c : Collab) keep b ii (w0 : World) :
  preserves (λ f : Frame, evolves w0 (world f)) (process_page c keep b ii).
Proof.
  unfold process_page.
  apply preserves_bind; [apply preserves_in_world, print_evolves | intros _].
  apply preserves_bind; [apply preserves_in_world, save_evolves | intros _].
  apply preserves_bind; [by intros f Hf | intros _].
  apply preserves_bind; [apply preserves_lift_outcome | intros text].
  apply preserves_bind; [apply preserves_in_world, print_evolves | intros _].
  apply preserves_bind; [by intros f Hf | intros _].
  apply preserves_bind; [apply preserves_in_world, os_path_exists_evolves | intros present].
  destruct (_ && _); [|apply preserves_ret].
  apply preserves_try_except.
  - apply preserves_bind.
    + apply preserves_in_world, remove_evolves. by eexists.
    + intros _ f Hf. unfold temp_image_paths_remove.
      by destruct (list_remove _ _).
  - intros e. apply preserves_in_world, print_evolves.
Qed.

Lemma process_page_tracked (c : Collab) keep b ii w0 (f : Frame) :
  tracked w0 f → tracked w0 (fst (process_page c keep b ii f)).
Proof.
  intros (Ht & Hf). unfold process_page. py_unfold. simpl.
  destruct (image_save c (snd ii) _) as [e|] eqn:Hs; simpl.
  { done. }
  set (p := temp_image_path (b + Z.of_nat ii.1)).
  set (w1 := put_file p (Png ii.2) _).
  assert (T1 : Forall is_temp_image_path (temp_image_paths f ++ [p])).
  { apply Forall_app. split; [done|]. constructor; [by eexists|constructor]. }
  assert (F1 : ∀ q : string, fs w1 !! q = fs w0 !! q ∨ fs w1 !! q = None
                 ∨ q ∈ temp_image_paths f ++ [p]).
  { intros q. destruct (decide (q = p)) as [->|Hne].
    - right; right. apply elem_of_app. right. apply list_elem_of_here.
    - subst w1. simpl. rewrite lookup_insert_ne by done.
      destruct (Hf q) as [?|[?|?]]; auto. right; right. apply elem_of_app. by left. }
  destruct (image_to_string c (snd ii)) as [text|e]; simpl; [|done].
  rewrite lookup_insert_eq, bool_decide_eq_true_2 by eauto.
  destruct keep; simpl.
  { done. }
  rewrite lookup_insert_eq.
  destruct (os_remove c p) as [e|] eqn:Hr; simpl.
  { done. }
  destruct (list_remove p (temp_image_paths f ++ [p])) as [l|] eqn:Hl; simpl.
  - destruct (list_remove_spec _ _ _ Hl) as [L1 L2]. split.
    + apply Forall_forall. intros y Hy. eapply Forall_forall in T1; eauto.
    + intros q. unfold drop_file; simpl.
      destruct (decide (q = p)) as [->|Hne].
      * right; left. apply lookup_delete_eq.
      * rewrite lookup_delete_ne by done. destruct (F1 q) as [?|[?|?]]; auto.
  - split.
    + done.
    + intros q. unfold drop_file; simpl.
      destruct (decide (q = p)) as [->|Hne].
      * right; left. apply lookup_delete_eq.
      * rewrite lookup_delete_ne by done. destruct (F1 q) as [?|[?|?]]; auto.
Qed.

Lemma evolves_is_running (w0 w1 : World) :
  evolves w0 w1 → is_running w1 = is_running w0.
Proof. induction 1; simpl; auto. Qed.

Lemma evolves_stdout (w0 w1 : World) line :
  evolves w0 w1 → line ∈ stdout w0 → line ∈ stdout w1.
Proof.
  induction 1; simpl; auto. intros Hl. apply elem_of_app. left. auto.
Qed.

Lemma evolves_fs (w0 w1 : World) p :
  evolves w0 w1 → ¬ is_temp_image_path p → fs w1 !! p = fs w0 !! p.
Proof.
  induction 1; simpl; intros Hp; auto.
  - rewrite lookup_insert_ne; [auto|]. intros <-. apply Hp. by eexists.
  - rewrite lookup_delete_ne; [auto|]. intros <-. apply Hp. by eexists.
Qed.

Lemma process_batch_evolves (c : Collab) path keep total b (w0 : World) :
  preserves (λ f : Frame, evolves w0 (world f)) (process_batch c path keep total b).
Proof.
  unfold process_batch.
  apply preserves_bind; [apply preserves_in_world, print_evolves | intros _].
  apply preserves_bind; [apply preserves_lift_outcome | intros images].
  destruct images.
  - apply preserves_in_world, print_evolves.
  - apply preserves_for_each. intros ii. apply process_page_evolves.
Qed.

Lemma process_batch_tracked (c : Collab) path keep total b (w0 : World) :
  preserves (tracked w0) (process_batch c path keep total b).
Proof.
  unfold process_batch.
  apply preserves_bind; [by intros f Hf | intros _].
  apply preserves_bind; [apply preserves_lift_outcome | intros images].
  destruct images.
  - by intros f Hf.
  - apply preserves_for_each. intros ii f Hf. by apply process_page_tracked.
Qed.

Lemma determine_total_pages_frame (c : Collab) path mp sp (f : Frame) :
  determine_total_pages c path mp sp f
  = (f, upper_bound c path mp sp).
Proof.
  unfold determine_total_pages, upper_bound, bind, lift_outcome, raise, ret.
  destruct mp; [done|].
  destruct (future_result 10 _) as [[|i l]|e]; done.
Qed.

Lemma processing_evolves (c : Collab) path mp sp keep (w0 : World) :
  preserves (λ f : Frame, evolves w0 (world f)) (processing c path mp sp keep).
Proof.
  unfold processing.
  apply preserves_bind.
  { intros f Hf. by rewrite determine_total_pages_frame. }
  intros total.
  apply preserves_bind; [apply preserves_in_world, print_evolves | intros _].
  apply preserves_for_each. intros b. apply process_batch_evolves.
Qed.

Lemma processing_tracked (c : Collab) path mp sp keep (w0 : World) :
  preserves (tracked w0) (processing c path mp sp keep).
Proof.
  unfold processing.
  apply preserves_bind.
  { intros f Hf. by rewrite determine_total_pages_frame. }
  intros total.
  apply preserves_bind; [by intros f Hf | intros _].
  apply preserves_for_each. intros b. apply process_batch_tracked.
Qed.

Lemma on_error_evolves (w0 : World) e :
  preserves (λ f : Frame, evolves w0 (world f)) (on_error e).
Proof.
  unfold on_error. destruct (is_TimeoutError e);
    (apply preserves_bind; [apply preserves_in_world, print_evolves | intros _]);
    apply preserves_raise.
Qed.

Lemma on_error_tracked (w0 : World) e : preserves (tracked w0) (on_error e).
Proof. unfold on_error. by destruct (is_TimeoutError e); intros f Hf. Qed.

Lemma on_error_outcome e (f : Frame) :
  (on_error e f).2 = Raise (reraised e)
  ∧ extracted_text (on_error e f).1 = extracted_text f
  ∧ (is_TimeoutError e = true →
     ("Timeout error: " +:+ str_exn e) ∈ stdout (world (on_error e f).1)).
Proof.
  unfold on_error, reraised. destruct (is_TimeoutError e); simpl; repeat split;
    try done.
  intros _. apply elem_of_app. right. apply list_elem_of_here.
Qed.

(** *** The [finally] clause *)

Lemma cleanup_one_spec (c : Collab) q (f : Frame) :
  (cleanup_one c q f).2 = Ok tt
  ∧ extracted_text (cleanup_one c q f).1 = extracted_text f
  ∧ temp_image_paths (cleanup_one c q f).1 = temp_image_paths f
  ∧ (∀ p, fs (world (cleanup_one c q f).1) !! p = fs (world f) !! p
          ∨ fs (world (cleanup_one c q f).1) !! p = None)
  ∧ (fs (world (cleanup_one c q f).1) !! q = None
     ∨ ∃ e, os_remove c q = Some e
            ∧ cleanup_error q e ∈ stdout (world (cleanup_one c q f).1)).
Proof.
  unfold cleanup_one. py_unfold. simpl.
  destruct (fs (world f) !! q) as [d|] eqn:Hq.
  - rewrite bool_decide_eq_true_2 by eauto. simpl. rewrite Hq.
    destruct (os_remove c q) as [e|] eqn:Hr; simpl.
    + repeat split; auto. right. exists e. split; [done|].
      apply elem_of_app. right. apply list_elem_of_here.
    + repeat split; auto.
      * intros p. destruct (decide (p = q)) as [->|Hne].
        -- right. apply lookup_delete_eq.
        -- left. by apply lookup_delete_ne.
      * left. apply lookup_delete_eq.
  - rewrite bool_decide_eq_false_2 by (intros [? ?]; congruence). simpl.
    repeat split; auto.
Qed.

Lemma cleanup_one_evolves (c : Collab) q (w0 : World) :
  is_temp_image_path q →
  preserves (λ f : Frame, evolves w0 (world f)) (cleanup_one c q).
Proof.
  intros Hq. unfold cleanup_one.
  apply preserves_bind; [apply preserves_in_world, os_path_exists_evolves|].
  intros [|]; [|apply preserves_ret].
  apply preserves_try_except.
  - by apply preserves_in_world, remove_evolves.
  - intros e. apply preserves_in_world, print_evolves.
Qed.

Lemma cleanup_loop_spec (c : Collab) l (f : Frame) :
  Forall is_temp_image_path l →
  (for_each l (cleanup_one c) f).2 = Ok tt
  ∧ extracted_text (for_each l (cleanup_one c) f).1 = extracted_text f
  ∧ evolves (world f) (world (for_each l (cleanup_one c) f).1)
  ∧ (∀ p, fs (world (for_each l (cleanup_one c) f).1) !! p = fs (world f) !! p
          ∨ fs (world (for_each l (cleanup_one c) f).1) !! p = None)
  ∧ (∀ q, q ∈ l →
       fs (world (for_each l (cleanup_one c) f).1) !! q = None
       ∨ ∃ e, os_remove c q = Some e
              ∧ cleanup_error q e ∈ stdout (world (for_each l (cleanup_one c) f).1)).
Proof.
  revert f. induction l as [|q l IH]; intros f Hl; simpl.
  - repeat split; auto. + constructor. + intros q Hq. by apply elem_of_nil in Hq.
  - inversion Hl as [|? ? Hq Hl']; subst. unfold bind.
    destruct (cleanup_one_spec c q f) as (R1 & X1 & _ & F1 & Q1).
    pose proof (cleanup_one_evolves c q (world f) Hq f (evolves_refl _)) as E1.
    destruct (cleanup_one c q f) as [f1 r1]; simpl in *. subst r1.
    destruct (IH f1 Hl') as (R2 & X2 & E2 & F2 & Q2).
    repeat split.
    + done.
    + congruence.
    + eapply evolves_trans; eauto.
    + intros p. destruct (F2 p) as [->|?]; auto.
    + intros q' Hq'. apply elem_of_cons in Hq' as [->|Hq']; [|auto].
      destruct Q1 as [HN|(e & He & Hin)].
      * left. destruct (F2 q) as [->|?]; auto.
      * right. exists e. split; [done|]. eapply evolves_stdout; eauto.
Qed.

Lemma cleanup_spec (c : Collab) keep (f : Frame) :
  Forall is_temp_image_path (temp_image_paths f) →
  (cleanup c keep f).2 = Ok tt
  ∧ extracted_text (cleanup c keep f).1 = extracted_text f
  ∧ evolves (world f) (world (cleanup c keep f).1)
  ∧ (keep = false →
     (∀ p, fs (world (cleanup c keep f).1) !! p = fs (world f) !! p
           ∨ fs (world (cleanup c keep f).1) !! p = None)
     ∧ (∀ q, q ∈ temp_image_paths f →
          fs (world (cleanup c keep f).1) !! q = None
          ∨ ∃ e, os_remove c q = Some e
                 ∧ cleanup_error q e ∈ stdout (world (cleanup c keep f).1))).
Proof.
  intros Hl. unfold cleanup. destruct keep; simpl.
  - repeat split; [constructor | done | done].
  - destruct (cleanup_loop_spec c _ f Hl) as (R & X & E & F & Q).
    repeat split; auto.
Qed.

(** *** The text result *)

Lemma process_page_outcome (c : Collab) keep b ii (f : Frame) :
  match page_texts c b [ii] with
  | Ok ts => (process_page c keep b ii f).2 = Ok tt
             ∧ extracted_text (process_page c keep b ii f).1 = extracted_text f ++ ts
  | Raise e => (process_page c keep b ii f).2 = Raise e
  end.
Proof.
  unfold process_page. py_unfold. simpl.
  destruct (image_save c _ _) as [e|]; simpl; [done|].
  destruct (image_to_string c _) as [text|e]; simpl; [|done].
  rewrite lookup_insert_eq, bool_decide_eq_true_2 by eauto.
  destruct keep; simpl; [done|].
  rewrite lookup_insert_eq.
  destruct (os_remove c _); simpl; [done|].
  by destruct (list_remove _ _).
Qed.

Lemma process_pages_outcome (c : Collab) keep b l (f : Frame) :
  match page_texts c b l with
  | Ok ts => (for_each l (process_page c keep b) f).2 = Ok tt
             ∧ extracted_text (for_each l (process_page c keep b) f).1
               = extracted_text f ++ ts
  | Raise e => (for_each l (process_page c keep b) f).2 = Raise e
  end.
Proof.
  revert f. induction l as [|ii l IH]; intros f; simpl.
  - split; [done|]. by rewrite app_nil_r.
  - pose proof (process_page_outcome c keep b ii f) as H1. simpl in H1.
    unfold bind.
    destruct (image_save c _ _) as [e|].
    { by destruct (process_page c keep b ii f) as [f1 r1]; simpl in *; subst. }
    destruct (image_to_string c _) as [text|e].
    2:{ by destruct (process_page c keep b ii f) as [f1 r1]; simpl in *; subst. }
    destruct H1 as [H1 H2].
    destruct (process_page c keep b ii f) as [f1 r1]; simpl in *; subst.
    specialize (IH f1). destruct (page_texts c b l) as [ts|e]; [|done].
    destruct IH as [I1 I2]. split; [done|]. rewrite I2, H2.
    by rewrite <- app_assoc.
Qed.

Lemma process_batch_outcome (c : Collab) path keep total b (f : Frame) :
  match batch_texts c path total [b] with
  | Ok ts => (process_batch c path keep total b f).2 = Ok tt
             ∧ extracted_text (process_batch c path keep total b f).1
               = extracted_text f ++ ts
  | Raise e => (process_batch c path keep total b f).2 = Raise e
  end.
Proof.
  simpl. unfold process_batch, batch_images. unfold bind at 1. simpl.
  unfold bind, lift_outcome.
  destruct (future_result 30 _) as [images|e]; [|done].
  destruct images as [|i images].
  - simpl. split; [done|]. by rewrite app_nil_r.
  - pose proof (process_pages_outcome c keep b (enumerate (i :: images))
                  {| world := (print ("Processing batch: pages " +:+ str_int b +:+ " to " +:+ str_int (Z.min (b + BATCH_SIZE - 1) total)) (world f)).1;
                     extracted_text := extracted_text f;
                     temp_image_paths := temp_image_paths f |}) as H.
    destruct (page_texts c b (enumerate (i :: images))) as [ts|e]; [|done].
    rewrite app_nil_r. done.
Qed.

Lemma batch_texts_app (c : Collab) path total l1 l2 :
  batch_texts c path total (l1 ++ l2)
  = match batch_texts c path total l1 with
    | Ok ts => match batch_texts c path total l2 with
               | Ok ts' => Ok (ts ++ ts')
               | Raise e => Raise e
               end
    | Raise e => Raise e
    end.
Proof.
  induction l1 as [|b l1 IH]; simpl.
  - by destruct (batch_texts c path total l2).
  - destruct (batch_images c path total b) as [images|e]; [|done].
    destruct (page_texts c b (enumerate images)) as [ts|e]; [|done].
    rewrite IH. destruct (batch_texts c path total l1) as [ts1|e]; [|done].
    destruct (batch_texts c path total l2) as [ts2|e]; [|done].
    by rewrite app_assoc.
Qed.

Lemma process_batches_outcome (c : Collab) path keep total l (f : Frame) :
  match batch_texts c path total l with
  | Ok ts => (for_each l (process_batch c path keep total) f).2 = Ok tt
             ∧ extracted_text (for_each l (process_batch c path keep total) f).1
               = extracted_text f ++ ts
  | Raise e => (for_each l (process_batch c path keep total) f).2 = Raise e
  end.
Proof.
  revert f. induction l as [|b l IH]; intros f.
  - simpl. split; [done|]. by rewrite app_nil_r.
  - change (b :: l) with ([b] ++ l). rewrite batch_texts_app.
    pose proof (process_batch_outcome c path keep total b f) as H1.
    simpl for_each. unfold bind.
    destruct (batch_texts c path total [b]) as [ts|e].
    2:{ by destruct (process_batch c path keep total b f) as [f1 r1]; simpl in *; subst. }
    destruct H1 as [H1 H2].
    destruct (process_batch c path keep total b f) as [f1 r1]; simpl in *; subst.
    specialize (IH f1). destruct (batch_texts c path total l) as [ts'|e]; [|done].
    destruct IH as [I1 I2]. split; [done|]. rewrite I2, H2.
    by rewrite <- app_assoc.
Qed.

Lemma processing_outcome (c : Collab) path mp sp keep (f : Frame) :
  match inner_outcome c path mp sp with
  | Ok ts => (processing c path mp sp keep f).2 = Ok tt
             ∧ extracted_text (processing c path mp sp keep f).1
               = extracted_text f ++ ts
  | Raise e => (processing c path mp sp keep f).2 = Raise e
  end.
Proof.
  unfold processing, inner_outcome. unfold bind.
  rewrite determine_total_pages_frame.
  destruct (upper_bound c path mp sp) as [total|e]; [|done].
  unfold in_world. simpl.
  match goal with
  | |- context [for_each _ _ ?f'] =>
      pose proof (process_batches_outcome c path keep total
                    (batch_starts sp total) f') as H
  end.
  exact H.
Qed.

Lemma no_images_logged (c : Collab) path keep total l b (f : Frame) :
  b ∈ l → batch_images c path total b = Ok [] →
  (for_each l (process_batch c path keep total) f).2 = Ok tt →
  no_images_warning total b
    ∈ stdout (world (for_each l (process_batch c path keep total) f).1).
Proof.
  revert f. induction l as [|x l IH]; intros f Hb Hi Hr.
  { by apply elem_of_nil in Hb. }
  simpl in *. unfold bind in *.
  destruct (process_batch c path keep total x f) as [f1 [[]|e]] eqn:Hx; [|done].
  destruct (decide (b = x)) as [->|Hne].
  - pose proof (preserves_for_each _ _ l
      (fun y => process_batch_evolves c path keep total y (world f1)) f1
      (evolves_refl _)) as He.
    eapply evolves_stdout; [exact He|].
    unfold process_batch, batch_images in *. unfold bind, lift_outcome in Hx.
    simpl in Hx. rewrite Hi in Hx. simpl in Hx. injection Hx as <-. simpl.
    apply elem_of_app. right. apply list_elem_of_here.
  - apply IH; auto. apply elem_of_cons in Hb as [?|?]; done.
Qed.

(** *** [extract_text_from_pdf] as a whole *)

Lemma extract_text_from_pdf_unfold (c : Collab) path mp sp keep (w : World) :
  is_running w = false → is_Some (fs w !! path) →
  extract_text_from_pdf c path mp sp keep w
  = ((set_running false
        (world (cleanup c keep (frame_before_cleanup c path mp sp keep w)).1)).1,
     extract_outcome c path mp sp).
Proof.
  intros Hidle Hex. unfold extract_text_from_pdf. rewrite Hidle.
  unfold frame_before_cleanup, extract_outcome.
  unfold bind at 1. simpl. unfold try_finally at 1.
  unfold extract_body. unfold bind at 1. simpl. unfold bind at 1. simpl.
  rewrite bool_decide_eq_true_2 by done. simpl.
  unfold with_frame. unfold bind at 1. unfold try_finally.
  set (f0 := mkFrame _ [] []).
  pose proof (processing_outcome c path mp sp keep f0) as Hp.
  pose proof (processing_tracked c path mp sp keep w f0) as Ht.
  unfold try_except.
  destruct (processing c path mp sp keep f0) as [f1 r1] eqn:Hrun; simpl in *.
  assert (T1 : tracked w f1).
  { apply Ht. split; [constructor|]. intros p. by left. }
  destruct (inner_outcome c path mp sp) as [ts|e].
  - destruct Hp as [-> Hx].
    destruct (cleanup_spec c keep f1 (proj1 T1)) as (R & X & _).
    destruct (cleanup c keep f1) as [f2 r2] eqn:Hc; simpl in *; subst.
    rewrite ?Hc. simpl. by rewrite X.
  - subst r1. destruct (on_error_outcome e f1) as (R1 & _ & _).
    pose proof (on_error_tracked w e f1 T1) as T2.
    destruct (on_error e f1) as [f1' r1']; simpl in *; subst.
    destruct (cleanup_spec c keep f1' (proj1 T2)) as (R & _).
    destruct (cleanup c keep f1') as [f2 r2] eqn:Hc; simpl in *; subst.
    rewrite ?Hc. done.
Qed.

Lemma frame_before_cleanup_tracked (c : Collab) path mp sp keep (w : World) :
  tracked w (frame_before_cleanup c path mp sp keep w).
Proof.
  unfold frame_before_cleanup.
  apply (preserves_try_except (tracked w)).
  - apply processing_tracked.
  - intros e. apply on_error_tracked.
  - split; [constructor|]. intros p. by left.
Qed.

Lemma frame_before_cleanup_evolves (c : Collab) path mp sp keep (w : World) :
  evolves (set_running true w).1
          (world (frame_before_cleanup c path mp sp keep w)).
Proof.
  unfold frame_before_cleanup.
  apply (preserves_try_except (λ f : Frame, evolves (set_running true w).1 (world f))).
  - apply processing_evolves.
  - intros e. apply on_error_evolves.
  - simpl. apply (evolves_print _ (set_running true w).1). constructor.
Qed.

Lemma frame_before_cleanup_timeout (c : Collab) path mp sp keep (w : World) e :
  inner_outcome c path mp sp = Raise e → is_TimeoutError e = true →
  ("Timeout error: " +:+ str_exn e)
    ∈ stdout (world (frame_before_cleanup c path mp sp keep w)).
Proof.
  intros Hi He. unfold frame_before_cleanup, try_except.
  set (f0 := mkFrame _ [] []).
  pose proof (processing_outcome c path mp sp keep f0) as Hp. rewrite Hi in Hp.
  destruct (processing c path mp sp keep f0) as [f1 r1]; simpl in *; subst.
  by apply on_error_outcome.
Qed.

Lemma frame_before_cleanup_warning (c : Collab) path mp sp keep (w : World)
    total ts b :
  upper_bound c path mp sp = Ok total →
  inner_outcome c path mp sp = Ok ts →
  b ∈ batch_starts sp total → batch_images c path total b = Ok [] →
  no_images_warning total b
    ∈ stdout (world (frame_before_cleanup c path mp sp keep w)).
Proof.
  intros Hu Hi Hb Himg. unfold frame_before_cleanup, try_except.
  set (f0 := mkFrame _ [] []).
  pose proof (processing_outcome c path mp sp keep f0) as Hp. rewrite Hi in Hp.
  destruct Hp as [Hp _]. revert Hp. unfold processing, bind.
  rewrite determine_total_pages_frame, Hu. unfold in_world. simpl.
  match goal with
  | |- context [for_each _ _ ?f'] =>
      pose proof (no_images_logged c path keep total (batch_starts sp total)
                    b f' Hb Himg) as Hw
  end.
  unfold batch_starts in *.
  destruct (for_each _ _ _) as [f1 [[]|e1]]; simpl in *; [|done].
  intros _. by apply Hw.
Qed.

(** The facts about one call on an idle extractor that the claims use. *)

Lemma extract_idle_outcome (c : Collab) path mp sp keep (w : World) :
  is_running w = false → is_Some (fs w !! path) →
  (extract_text_from_pdf c path mp sp keep w).2 = extract_outcome c path mp sp.
Proof. intros H1 H2. by rewrite extract_text_from_pdf_unfold. Qed.

Lemma extract_missing (c : Collab) path mp sp keep (w : World) :
  is_running w = false → fs w !! path = None →
  extract_text_from_pdf c path mp sp keep w
  = (mkWorld false (fs w) (stdout w ++ ["Extracting text from PDF: " +:+ path]),
     Raise (FileNotFoundError ("PDF file not found: " +:+ path))).
Proof.
  intros Hidle Hex. unfold extract_text_from_pdf. rewrite Hidle.
  unfold bind at 1. simpl. unfold try_finally, extract_body.
  unfold bind at 1. simpl. unfold bind. simpl. rewrite Hex.
  by rewrite bool_decide_eq_false_2 by (intros [? ?]; done).
Qed.

Lemma extract_idle_flag (c : Collab) path mp sp keep (w : World) :
  is_running w = false →
  ∃ w_out, evolves (set_running true w).1 w_out
           ∧ (extract_text_from_pdf c path mp sp keep w).1
             = (set_running false w_out).1.
Proof.
  intros Hidle. destruct (fs w !! path) as [d|] eqn:Hex.
  - rewrite extract_text_from_pdf_unfold by eauto. simpl.
    eexists. split; [|reflexivity].
    eapply evolves_trans; [apply frame_before_cleanup_evolves|].
    apply cleanup_spec, frame_before_cleanup_tracked.
  - rewrite extract_missing by done.
    exists (print ("Extracting text from PDF: " +:+ path) (set_running true w).1).1.
    split; [|reflexivity].
    apply (evolves_print _ (set_running true w).1). constructor.
Qed.

Lemma extract_idle_stdout (c : Collab) path mp sp keep (w : World) line :
  is_running w = false → line ∈ stdout w →
  line ∈ stdout (extract_text_from_pdf c path mp sp keep w).1.
Proof.
  intros Hidle Hl.
  destruct (extract_idle_flag c path mp sp keep w Hidle) as (w1 & He & ->).
  simpl. eapply evolves_stdout; eauto.
Qed.

Lemma extract_idle_released (c : Collab) path mp sp keep (w : World) :
  is_running w = false →
  is_running (extract_text_from_pdf c path mp sp keep w).1 = false.
Proof.
  intros Hidle.
  by destruct (extract_idle_flag c path mp sp keep w Hidle) as (w1 & He & ->).
Qed.

Lemma extract_idle_fs (c : Collab) path mp sp keep (w : World) p :
  is_running w = false → ¬ is_temp_image_path p →
  fs (extract_text_from_pdf c path mp sp keep w).1 !! p = fs w !! p.
Proof.
  intros Hidle Hp.
  destruct (extract_idle_flag c path mp sp keep w Hidle) as (w1 & He & ->).
  simpl. by rewrite (evolves_fs _ _ p He Hp).
Qed.

Lemma extract_idle_cleanup (c : Collab) path mp sp (w : World) p :
  is_running w = false →
  fs (extract_text_from_pdf c path mp sp false w).1 !! p = fs w !! p
  ∨ fs (extract_text_from_pdf c path mp sp false w).1 !! p = None
  ∨ ∃ e, os_remove c p = Some e
         ∧ cleanup_error p e ∈ stdout (extract_text_from_pdf c path mp sp false w).1.
Proof.
  intros Hidle. destruct (fs w !! path) as [d|] eqn:Hex.
  - rewrite extract_text_from_pdf_unfold by eauto.
    unfold set_running. cbn [fst fs stdout].
    pose proof (frame_before_cleanup_tracked c path mp sp false w) as [Ht Hf].
    destruct (cleanup_spec c false _ Ht) as (_ & _ & _ & Hc).
    destruct (Hc eq_refl) as [F Q].
    destruct (Hf p) as [H|[H|H]].
    + destruct (F p) as [->|?]; auto.
    + destruct (F p) as [->|?]; auto.
    + destruct (Q p H) as [?|?]; auto.
  - left. by rewrite extract_missing.
Qed.

End Proofs.

(** *** [range] *)

Lemma py_range_nil start stop step :
  0 < step → stop ≤ start → py_range start stop step = [].
Proof.
  intros Hs Hle. unfold py_range.
  assert ((stop - start + step - 1) / step ≤ 0) as H.
  { apply Z.lt_succ_r. apply Z.div_lt_upper_bound; lia. }
  by replace (Z.to_nat _) with O by lia.
Qed.

Lemma py_range_cons start stop step :
  0 < step → start < stop →
  py_range start stop step = start :: py_range (start + step) stop step.
Proof.
  intros Hs Hlt. unfold py_range.
  replace (stop - start + step - 1) with ((stop - (start + step) + step - 1) + 1 * step) by lia.
  rewrite Z.div_add by lia.
  assert (0 ≤ (stop - (start + step) + step - 1) / step) as H.
  { apply Z.div_pos; lia. }
  replace (Z.to_nat (_ + 1)) with (S (Z.to_nat ((stop - (start + step) + step - 1) / step))) by lia.
  simpl. f_equal; [lia|].
  rewrite <- seq_shift, map_map. apply map_ext. intros k. lia.
Qed.

Lemma py_range_bounds start stop step b :
  0 < step → b ∈ py_range start stop step → start ≤ b < stop.
Proof.
  intros Hs Hb. unfold py_range in Hb.
  apply list_elem_of_In, in_map_iff in Hb as (k & <- & Hk).
  apply in_seq in Hk.
  assert (Z.of_nat k < (stop - start + step - 1) / step) as H by lia.
  assert (step * Z.of_nat k ≤ stop - start - 1); [|lia].
  assert (step * (Z.of_nat k + 1) ≤ step * ((stop - start + step - 1) / step)) by nia.
  pose proof (Z.mul_div_le (stop - start + step - 1) step Hs). lia.
Qed.

Lemma py_range_spaced start stop step :
  0 < step →
  StronglySorted (λ a b, a + step ≤ b) (py_range start stop step).
Proof.
  intros Hs. unfold py_range.
  generalize (Z.to_nat ((stop - start + step - 1) / step)). intros n.
  revert start. induction n as [|n IH]; intros start; simpl; constructor.
  - rewrite <- seq_shift, map_map.
    erewrite map_ext; [apply (IH (start + step))|]. intros k. simpl. lia.
  - apply Forall_forall. intros b Hb.
    apply list_elem_of_In, in_map_iff in Hb as (k & <- & Hk).
    apply in_seq in Hk. nia.
Qed.

Lemma StronglySorted_app_intro {A} (R : A → A → Prop) l1 l2 :
  StronglySorted R l1 → StronglySorted R l2 →
  (∀ x y, In x l1 → In y l2 → R x y) →
  StronglySorted R (l1 ++ l2).
Proof.
  intros H1 H2 H. induction H1 as [|a l1 Hs IH Hf]; simpl; [done|].
  constructor.
  - apply IH. intros x y Hx Hy. apply H; [by right | done].
  - apply Forall_app. split; [done|].
    apply Forall_forall. intros y Hy. apply list_elem_of_In in Hy.
    apply H; [by left | done].
Qed.

Section Pages.
Context {Image : Type}.
Abbreviation World := (World Image).
Abbreviation Frame := (Frame Image).
Abbreviation Collab := (Collab Image).

(** *** The numbered pages *)

Lemma enumerate_numbers (b : Z) (l : list Image) :
  map (λ ii : nat * Image, b + Z.of_nat ii.1) (enumerate l)
  = map (λ k : nat, b + Z.of_nat k) (seq 0 (length l)).
Proof.
  unfold enumerate. generalize 0%nat. induction l as [|x l IH]; intros k; simpl.
  - done.
  - f_equal. apply IH.
Qed.

Lemma numbers_sorted (b : Z) (k n : nat) :
  StronglySorted Z.lt (map (λ i : nat, b + Z.of_nat i) (seq k n)).
Proof.
  revert k. induction n as [|n IH]; intros k; simpl; constructor; [apply IH|].
  apply Forall_forall. intros x Hx.
  apply list_elem_of_In, in_map_iff in Hx as (i & <- & Hi).
  apply in_seq in Hi. lia.
Qed.

Lemma numbered_pages_cons (c : Collab) path total b l :
  numbered_pages c path total (b :: l)
  = match batch_images c path total b with
    | Ok page_images =>
        map (λ ii : nat * Image, (b + Z.of_nat ii.1, ii.2)) (enumerate page_images)
    | Raise _ => []
    end ++ numbered_pages c path total l.
Proof. reflexivity. Qed.

Lemma numbered_pages_ascending (c : Collab) path total l :
  StronglySorted (λ a b, a + BATCH_SIZE ≤ b) l →
  (∀ b, b ∈ l → ∀ imgs, batch_images c path total b = Ok imgs →
     Z.of_nat (length imgs) ≤ Z.min (b + BATCH_SIZE - 1) total - b + 1) →
  StronglySorted Z.lt (map fst (numbered_pages c path total l))
  ∧ ∀ n, In n (map fst (numbered_pages c path total l)) →
         ∃ b, b ∈ l ∧ b ≤ n ≤ Z.min (b + BATCH_SIZE - 1) total.
Proof.
  unfold BATCH_SIZE.
  induction 1 as [|b l Hs IH Hf]; intros Hc.
  { simpl. split; [constructor | done]. }
  rewrite numbered_pages_cons, map_app.
  destruct IH as [I1 I2].
  { intros b' Hb'. apply Hc. by apply list_elem_of_further. }
  assert (Hb : ∀ n, In n (map fst
            match batch_images c path total b with
            | Ok page_images =>
                map (λ ii : nat * Image, (b + Z.of_nat ii.1, ii.2))
                    (enumerate page_images)
            | Raise _ => []
            end) → b ≤ n ≤ Z.min (b + 10 - 1) total).
  { intros n Hn. specialize (Hc b (list_elem_of_here _ _)).
    destruct (batch_images c path total b) as [imgs|e]; [|done].
    specialize (Hc imgs eq_refl).
    rewrite map_map in Hn. simpl in Hn. rewrite enumerate_numbers in Hn.
    apply in_map_iff in Hn as (k & <- & Hk). apply in_seq in Hk. lia. }
  split.
  - apply StronglySorted_app_intro; [|done|].
    + destruct (batch_images c path total b) as [imgs|e]; [|constructor].
      rewrite map_map. simpl. rewrite enumerate_numbers. apply numbers_sorted.
    + intros x y Hx Hy. apply Hb in Hx. apply I2 in Hy as (b' & Hb' & Hy).
      eapply Forall_forall in Hf; [|exact Hb']. simpl in Hf. lia.
  - intros n Hn. apply in_app_iff in Hn as [Hn|Hn].
    + exists b. split; [apply list_elem_of_here | by apply Hb].
    + apply I2 in Hn as (b' & Hb' & Hn). exists b'.
      split; [by apply list_elem_of_further | done].
Qed.

Lemma page_texts_all (c : Collab) (ocr : Image → string) b (l : list (nat * Image)) :
  (∀ ii, In ii l →
     image_save c ii.2 (temp_image_path (b + Z.of_nat ii.1)) = None
     ∧ image_to_string c ii.2 = Ok (ocr ii.2)) →
  page_texts c b l = Ok (map (λ ii, ocr ii.2) l).
Proof.
  induction l as [|ii l IH]; intros H; simpl; [done|].
  destruct (H ii (or_introl eq_refl)) as [-> ->].
  rewrite IH; [done|]. intros x Hx. apply H. by right.
Qed.

Lemma batch_texts_all (c : Collab) (ocr : Image → string) path total l :
  (∀ b, b ∈ l → ∃ imgs, batch_images c path total b = Ok imgs) →
  (∀ x, In x (numbered_pages c path total l) →
     image_save c x.2 (temp_image_path x.1) = None
     ∧ image_to_string c x.2 = Ok (ocr x.2)) →
  batch_texts c path total l
  = Ok (map (λ x, ocr x.2) (numbered_pages c path total l)).
Proof.
  induction l as [|b l IH]; intros Hr Ho; [done|].
  rewrite numbered_pages_cons in *. simpl.
  destruct (Hr b (list_elem_of_here _ _)) as [imgs Hi]. rewrite Hi in *.
  rewrite (page_texts_all c ocr).
  2:{ intros ii Hii. apply (Ho (b + Z.of_nat ii.1, ii.2)).
      apply in_app_iff. left. apply in_map_iff. by exists ii. }
  rewrite IH.
  - by rewrite map_app, map_map.
  - intros b' Hb'. apply Hr. by apply list_elem_of_further.
  - intros x Hx. apply Ho. apply in_app_iff. by right.
Qed.

End Pages.

Section Operations.
Context {Image : Type}.
Abbreviation World := (World Image).
Abbreviation Frame := (Frame Image).
Abbreviation Collab := (Collab Image).

Lemma extract_busy (c : Collab) path mp sp keep (w : World) :
  is_running w = true →
  extract_text_from_pdf c path mp sp keep w = (w, Raise busy).
Proof. intros H. unfold extract_text_from_pdf. by rewrite H. Qed.

Lemma extract_idle_timeout (c : Collab) path mp sp keep (w : World) e :
  is_running w = false → is_Some (fs w !! path) →
  inner_outcome c path mp sp = Raise e → is_TimeoutError e = true →
  ("Timeout error: " +:+ str_exn e)
    ∈ stdout (extract_text_from_pdf c path mp sp keep w).1.
Proof.
  intros Hidle Hex Hi He. rewrite extract_text_from_pdf_unfold by done.
  unfold set_running. cbn [fst stdout].
  eapply evolves_stdout.
  - apply cleanup_spec, frame_before_cleanup_tracked.
  - by apply frame_before_cleanup_timeout.
Qed.

Lemma extract_idle_warning (c : Collab) path mp sp keep (w : World) total ts b :
  is_running w = false → is_Some (fs w !! path) →
  upper_bound c path mp sp = Ok total →
  inner_outcome c path mp sp = Ok ts →
  b ∈ batch_starts sp total → batch_images c path total b = Ok [] →
  no_images_warning total b
    ∈ stdout (extract_text_from_pdf c path mp sp keep w).1.
Proof.
  intros Hidle Hex Hu Hi Hb Himg. rewrite extract_text_from_pdf_unfold by done.
  unfold set_running. cbn [fst stdout].
  eapply evolves_stdout.
  - apply cleanup_spec, frame_before_cleanup_tracked.
  - by eapply frame_before_cleanup_warning.
Qed.

(** *** [get_text_from_pdf] *)

Lemma get_text_busy (c : Collab) path mp sp (w : World) :
  is_running w = true → get_text_from_pdf c path mp sp w = (w, Raise busy).
Proof.
  intros H. unfold get_text_from_pdf, bind. by rewrite extract_busy.
Qed.

Lemma get_text_missing (c : Collab) path mp sp (w : World) :
  is_running w = false → fs w !! path = None →
  get_text_from_pdf c path mp sp w
  = (mkWorld false (fs w) (stdout w ++ ["Extracting text from PDF: " +:+ path]),
     Raise (FileNotFoundError ("PDF file not found: " +:+ path))).
Proof.
  intros H1 H2. unfold get_text_from_pdf, bind. by rewrite extract_missing.
Qed.

Lemma get_text_idle (c : Collab) path mp sp (w : World) :
  is_running w = false → is_Some (fs w !! path) →
  get_text_from_pdf c path mp sp w
  = ((extract_text_from_pdf c path mp sp false w).1,
     match extract_outcome c path mp sp with
     | Ok text_list => Ok (str_join blank_line text_list)
     | Raise e => Raise e
     end).
Proof.
  intros H1 H2. unfold get_text_from_pdf, bind.
  pose proof (extract_idle_outcome c path mp sp false w H1 H2) as Ho.
  destruct (extract_text_from_pdf c path mp sp false w) as [w' r]; simpl in *.
  subst r. by destruct (extract_outcome c path mp sp).
Qed.

(** *** [convert_to_text] *)

Lemma chunk_starts_none max_pages :
  max_pages < 1 → py_range 1 (max_pages + 1) CHUNK_SIZE = [].
Proof. intros H. apply py_range_nil; unfold CHUNK_SIZE; lia. Qed.

Lemma chunk_starts_some max_pages :
  1 ≤ max_pages →
  py_range 1 (max_pages + 1) CHUNK_SIZE
  = 1 :: py_range (1 + CHUNK_SIZE) (max_pages + 1) CHUNK_SIZE.
Proof. intros H. apply py_range_cons; unfold CHUNK_SIZE; lia. Qed.

Lemma convert_to_text_no_pages (c : Collab) path max_pages (w : World) :
  max_pages < 1 → convert_to_text c path (Some max_pages) w = (w, Ok failed).
Proof.
  intros H. unfold convert_to_text. by rewrite chunk_starts_none.
Qed.

Lemma convert_to_text_first_raises (c : Collab) path max_pages (w w' : World) e :
  1 ≤ max_pages →
  get_text_from_pdf c path (Some CHUNK_SIZE) 1 (print (first_chunk_line max_pages) w).1
  = (w', Raise e) →
  convert_to_text c path (Some max_pages) w = (w', Raise e).
Proof.
  intros H Hg. unfold convert_to_text. rewrite chunk_starts_some by done.
  unfold bind at 1. simpl chunk_loop. unfold bind at 1. simpl.
  unfold bind at 1. unfold first_chunk_line in Hg. simpl in Hg. by rewrite Hg.
Qed.

Lemma chunk_loop_length (c : Collab) path max_pages starts acc n (w w' : World) all_text n' :
  chunk_loop c path max_pages starts acc n w = (w', Ok (all_text, n')) →
  length all_text = (length acc + length starts)%nat.
Proof.
  revert acc n w. induction starts as [|s starts IH]; intros acc n w H; simpl in H.
  - injection H as _ <- _. simpl. lia.
  - unfold bind in H. simpl in H.
    destruct (get_text_from_pdf _ _ _ _ _) as [w1 [chunk|e]]; [|done].
    apply IH in H. rewrite H, length_app. simpl. lia.
Qed.

End Operations.

(** *** The observed run *)

Section ObservedProofs.
Context {Image : Type}.
Abbreviation World := (World Image).
Abbreviation Frame := (Frame Image).
Abbreviation Collab := (Collab Image).

Lemma agrees_oret {S A} (a : A) : agrees (@oret Image S A a) (ret a).
Proof. by intros s. Qed.

Lemma agrees_oraise {S A} e : agrees (@oraise Image S A e) (raise e).
Proof. by intros s. Qed.

Lemma agrees_olift {S A} (r : outcome A) :
  agrees (@olift Image S A r) (lift_outcome r).
Proof. by intros s. Qed.

Lemma agrees_obind {S A B} (o : Obs Image S A) m (k : A → Obs Image S B) k' :
  agrees o m → (∀ a, agrees (k a) (k' a)) → agrees (obind o k) (bind m k').
Proof.
  intros Ho Hk s. unfold obind, bind. specialize (Ho s).
  destruct (o s) as [t [[s' r]|]]; simpl in Ho; [|done].
  injection Ho as <-. destruct r as [a|e]; [|done]. simpl. apply Hk.
Qed.

Lemma agrees_otry_except {S A} (o : Obs Image S A) m h h' :
  agrees o m → (∀ e, agrees (h e) (h' e)) →
  agrees (otry_except o h) (try_except m h').
Proof.
  intros Ho Hh s. unfold otry_except, try_except. specialize (Ho s).
  destruct (o s) as [t [[s' r]|]]; simpl in Ho; [|done].
  injection Ho as <-. destruct r as [a|e]; [done|]. simpl. apply Hh.
Qed.

Lemma agrees_otry_finally {S A} (o : Obs Image S A) m f f' :
  agrees o m → agrees f f' → agrees (otry_finally o f) (try_finally m f').
Proof.
  intros Ho Hf s. unfold otry_finally, try_finally. specialize (Ho s).
  destruct (o s) as [t [[s' r]|]]; simpl in Ho; [|done].
  injection Ho as <-. specialize (Hf s').
  destruct (f s') as [t' [[s'' r']|]]; simpl in Hf; [|done].
  injection Hf as <-. by destruct r' as [[]|e].
Qed.

Lemma agrees_ofor_each {S A} (l : list A) (body : A → Obs Image S unit) body' :
  (∀ x, agrees (body x) (body' x)) →
  agrees (ofor_each l body) (for_each l body').
Proof.
  intros Hb. induction l as [|x l IH]; simpl.
  - apply agrees_oret.
  - apply agrees_obind; [apply Hb | by intros _].
Qed.

Lemma agrees_effect {A} (m : Py World A) : agrees (effect m) m.
Proof. by intros w. Qed.

Lemma agrees_local {A} (m : Py Frame A) : agrees (local m) m.
Proof. by intros f. Qed.

Lemma agrees_oin_world {A} (o : Obs Image World A) m :
  agrees o m → agrees (oin_world o) (in_world m).
Proof.
  intros Ho f. unfold oin_world, in_world. specialize (Ho (world f)).
  destruct (o (world f)) as [t [[w r]|]]; simpl in Ho; [|done].
  by injection Ho as <-.
Qed.

Lemma agrees_owith_frame {A} (o : Obs Image Frame A) m :
  agrees o m → agrees (owith_frame o) (with_frame m).
Proof.
  intros Ho w. unfold owith_frame, with_frame. specialize (Ho (mkFrame w [] [])).
  destruct (o _) as [t [[f r]|]]; simpl in Ho; [|done].
  by injection Ho as <-.
Qed.

Lemma agrees_with_executor {S A} timeout (task : Z * outcome A) :
  agrees (@with_executor Image S A timeout true task)
         (lift_outcome (future_result timeout task)).
Proof. by intros s. Qed.

Section Returning.

Variable returns : string → Z → Z → bool.
Hypothesis returns_always : ∀ p first last, returns p first last = true.

Lemma process_page_agrees (c : Collab) keep b ii :
  agrees (Observed.process_page c keep b ii) (process_page c keep b ii).
Proof.
  unfold Observed.process_page, process_page.
  apply agrees_obind; [apply agrees_oin_world, agrees_effect | intros _].
  apply agrees_obind; [apply agrees_oin_world, agrees_effect | intros _].
  apply agrees_obind; [apply agrees_local | intros _].
  apply agrees_obind; [apply agrees_olift | intros text].
  apply agrees_obind; [apply agrees_oin_world, agrees_effect | intros _].
  apply agrees_obind; [apply agrees_local | intros _].
  apply agrees_obind; [apply agrees_oin_world, agrees_effect | intros present].
  destruct (_ && _); [|apply agrees_oret].
  apply agrees_otry_except.
  - apply agrees_obind; [apply agrees_oin_world, agrees_effect | intros _].
    apply agrees_local.
  - intros e. apply agrees_oin_world, agrees_effect.
Qed.

Lemma process_batch_agrees (c : Collab) path keep total b :
  agrees (Observed.process_batch returns c path keep total b)
         (process_batch c path keep total b).
Proof.
  unfold Observed.process_batch, process_batch.
  apply agrees_obind; [apply agrees_oin_world, agrees_effect | intros _].
  rewrite returns_always.
  apply agrees_obind; [apply agrees_with_executor | intros images].
  destruct images.
  - apply agrees_oin_world, agrees_effect.
  - apply agrees_ofor_each. intros ii. apply process_page_agrees.
Qed.

Lemma determine_total_pages_agrees (c : Collab) path mp sp :
  agrees (Observed.determine_total_pages returns c path mp sp)
         (determine_total_pages c path mp sp).
Proof.
  unfold Observed.determine_total_pages, determine_total_pages.
  destruct mp; [apply agrees_oret|]. rewrite returns_always.
  apply agrees_obind; [apply agrees_with_executor | intros first_page].
  destruct first_page; [apply agrees_oraise | apply agrees_oret].
Qed.

Lemma processing_agrees (c : Collab) path mp sp keep :
  agrees (Observed.processing returns c path mp sp keep)
         (processing c path mp sp keep).
Proof.
  unfold Observed.processing, processing.
  apply agrees_obind; [apply determine_total_pages_agrees | intros total].
  apply agrees_obind; [apply agrees_oin_world, agrees_effect | intros _].
  apply agrees_ofor_each. intros b. apply process_batch_agrees.
Qed.

Lemma on_error_agrees e : agrees (@Observed.on_error Image e) (on_error e).
Proof.
  unfold Observed.on_error, on_error. destruct (is_TimeoutError e);
    (apply agrees_obind; [apply agrees_oin_world, agrees_effect | intros _]);
    apply agrees_oraise.
Qed.

Lemma cleanup_one_agrees (c : Collab) p :
  agrees (Observed.cleanup_one c p) (cleanup_one c p).
Proof.
  unfold Observed.cleanup_one, cleanup_one.
  apply agrees_obind; [apply agrees_oin_world, agrees_effect | intros present].
  destruct present; [|apply agrees_oret].
  apply agrees_otry_except; [apply agrees_oin_world, agrees_effect|].
  intros e. apply agrees_oin_world, agrees_effect.
Qed.

Lemma cleanup_agrees (c : Collab) keep :
  agrees (Observed.cleanup c keep) (cleanup c keep).
Proof.
  unfold Observed.cleanup, cleanup. destruct keep; [apply agrees_oret|].
  intros f. apply (agrees_ofor_each _ _ _ (cleanup_one_agrees c)).
Qed.

Lemma extract_body_agrees (c : Collab) path mp sp keep :
  agrees (Observed.extract_body returns c path mp sp keep)
         (extract_body c path mp sp keep).
Proof.
  unfold Observed.extract_body, extract_body.
  apply agrees_obind; [apply agrees_effect | intros _].
  apply agrees_obind; [apply agrees_effect | intros present].
  destruct (negb present); [apply agrees_oraise|].
  apply agrees_owith_frame.
  apply agrees_obind; [|intros _; apply agrees_local].
  apply agrees_otry_finally; [|apply cleanup_agrees].
  apply agrees_otry_except; [apply processing_agrees|].
  intros e. apply on_error_agrees.
Qed.

Lemma extract_text_from_pdf_observed (c : Collab) path mp sp keep :
  agrees (Observed.extract_text_from_pdf returns c path mp sp keep)
         (extract_text_from_pdf c path mp sp keep).
Proof.
  intros w. unfold Observed.extract_text_from_pdf, extract_text_from_pdf.
  destruct (is_running w); [done|].
  apply (agrees_obind (effect (set_running true)) (set_running true));
    [apply agrees_effect | intros _].
  apply agrees_otry_finally; [apply extract_body_agrees | apply agrees_effect].
Qed.

End Returning.
End ObservedProofs.

Section Flag.
Context {Image : Type}.
Abbreviation World := (World Image).
Abbreviation Frame := (Frame Image).
Abbreviation Collab := (Collab Image).

Variable P : World → Prop.

Lemma keeps_oret {S A} proj (a : A) : keeps P proj (@oret Image S A a).
Proof. intros s Hs. split; [constructor|]. intros s' r Heq; simpl in *; by inversion Heq; subst. Qed.

Lemma keeps_oraise {S A} proj e : keeps P proj (@oraise Image S A e).
Proof. intros s Hs. split; [constructor|]. intros s' r Heq; simpl in *; by inversion Heq; subst. Qed.

Lemma keeps_olift {S A} proj (r : outcome A) : keeps P proj (@olift Image S A r).
Proof. intros s Hs. split; [constructor|]. intros s' r' Heq; simpl in *; by inversion Heq; subst. Qed.

Lemma keeps_with_executor {S A} proj timeout returned (task : Z * outcome A) :
  keeps P proj (@with_executor Image S A timeout returned task).
Proof.
  intros s Hs. unfold with_executor. destruct returned; simpl.
  - split; [constructor|]. intros s' r' Heq; simpl in *; by inversion Heq; subst.
  - split; [constructor | done].
Qed.

Lemma keeps_obind {S A B} proj (o : Obs Image S A) (k : A → Obs Image S B) :
  keeps P proj o → (∀ a, keeps P proj (k a)) → keeps P proj (obind o k).
Proof.
  intros Ho Hk s Hs. unfold obind. destruct (Ho s Hs) as [Ht Hr].
  destruct (o s) as [t [[s' [a|e]]|]]; simpl in *.
  - destruct (Hk a s' (Hr _ _ eq_refl)) as [Ht' Hr'].
    split; [by apply Forall_app | done].
  - split; [done|]. intros s'' r Heq; simpl in *; inversion Heq; subst. by eapply Hr.
  - by split.
Qed.

Lemma keeps_otry_except {S A} proj (o : Obs Image S A) h :
  keeps P proj o → (∀ e, keeps P proj (h e)) → keeps P proj (otry_except o h).
Proof.
  intros Ho Hh s Hs. unfold otry_except. destruct (Ho s Hs) as [Ht Hr].
  destruct (o s) as [t [[s' [a|e]]|]]; simpl in *.
  - split; [done|]. intros s'' r Heq; simpl in *; inversion Heq; subst. by eapply Hr.
  - destruct (Hh e s' (Hr _ _ eq_refl)) as [Ht' Hr'].
    split; [by apply Forall_app | done].
  - by split.
Qed.

Lemma keeps_ofor_each {S A} proj (l : list A) (body : A → Obs Image S unit) :
  (∀ x, keeps P proj (body x)) → keeps P proj (ofor_each l body).
Proof.
  intros Hb. induction l as [|x l IH]; simpl.
  - apply keeps_oret.
  - apply keeps_obind; [apply Hb | by intros _].
Qed.

Lemma keeps_effect {A} (m : Py World A) :
  (∀ w, P w → P (m w).1) → keeps P id (effect m).
Proof.
  intros Hm w Hw. unfold effect. simpl. split.
  - constructor; [by apply Hm | constructor].
  - intros w' r Heq. injection Heq as Heq. specialize (Hm w Hw).
    by rewrite Heq in Hm.
Qed.

Lemma keeps_local {A} (m : Py Frame A) :
  (∀ f, world (m f).1 = world f) → keeps P world (local m).
Proof.
  intros Hm f Hf. unfold local. simpl. split; [constructor|].
  intros f' r Heq. injection Heq as Heq. specialize (Hm f).
  rewrite Heq in Hm. simpl in Hm. by rewrite Hm.
Qed.

Lemma keeps_oin_world {A} (o : Obs Image World A) :
  keeps P id o → keeps P world (oin_world o).
Proof.
  intros Ho f Hf. unfold oin_world. destruct (Ho (world f) Hf) as [Ht Hr].
  destruct (o (world f)) as [t [[w r]|]]; simpl in *.
  - split; [done|]. intros f' r' Heq; simpl in *; inversion Heq; subst. simpl. by eapply Hr.
  - by split.
Qed.

Lemma keeps_owith_frame {A} (o : Obs Image Frame A) :
  keeps P world o → keeps P id (owith_frame o).
Proof.
  intros Ho w Hw. unfold owith_frame.
  destruct (Ho (mkFrame w [] []) Hw) as [Ht Hr].
  destruct (o _) as [t [[f r]|]]; simpl in *.
  - split; [done|]. intros w' r' Heq; simpl in *; inversion Heq; subst. by eapply Hr.
  - by split.
Qed.

Lemma keeps_otry_finally {S A} proj (o : Obs Image S A) f :
  keeps P proj o → keeps P proj f → keeps P proj (otry_finally o f).
Proof.
  intros Ho Hf s Hs. unfold otry_finally. destruct (Ho s Hs) as [Ht Hr].
  destruct (o s) as [t [[s' r]|]]; simpl in *; [|by split].
  destruct (Hf s' (Hr _ _ eq_refl)) as [Ht' Hr'].
  destruct (f s') as [t' [[s'' [[]|e]]|]]; simpl in *.
  - split; [by apply Forall_app|]. intros s3 r3 Heq; simpl in *; inversion Heq; subst. by eapply Hr'.
  - split; [by apply Forall_app|]. intros s3 r3 Heq; simpl in *; inversion Heq; subst. by eapply Hr'.
  - split; [by apply Forall_app | done].
Qed.

End Flag.

Section FlagSet.
Context {Image : Type}.
Abbreviation World := (World Image).
Abbreviation Frame := (Frame Image).
Abbreviation Collab := (Collab Image).

Lemma print_flag line : keeps flag_set id (effect (@print Image line)).
Proof. by apply keeps_effect. Qed.

Lemma os_path_exists_flag p : keeps flag_set id (effect (@os_path_exists Image p)).
Proof. by apply keeps_effect. Qed.

Lemma save_flag (c : Collab) image p : keeps flag_set id (effect (save c image p)).
Proof.
  apply keeps_effect. intros w Hw. unfold save.
  by destruct (image_save c image p).
Qed.

Lemma remove_flag (c : Collab) p : keeps flag_set id (effect (remove c p)).
Proof.
  apply keeps_effect. intros w Hw. unfold remove.
  destruct (fs w !! p); [|done]. by destruct (os_remove c p).
Qed.

Variable returns : string → Z → Z → bool.

Lemma process_page_flag (c : Collab) keep b ii :
  keeps flag_set world (Observed.process_page c keep b ii).
Proof.
  unfold Observed.process_page.
  apply keeps_obind; [apply keeps_oin_world, print_flag | intros _].
  apply keeps_obind; [apply keeps_oin_world, save_flag | intros _].
  apply keeps_obind; [by apply keeps_local | intros _].
  apply keeps_obind; [apply keeps_olift | intros text].
  apply keeps_obind; [apply keeps_oin_world, print_flag | intros _].
  apply keeps_obind; [by apply keeps_local | intros _].
  apply keeps_obind; [apply keeps_oin_world, os_path_exists_flag | intros present].
  destruct (_ && _); [|apply keeps_oret].
  apply keeps_otry_except.
  - apply keeps_obind; [apply keeps_oin_world, remove_flag | intros _].
    apply keeps_local. intros f. unfold temp_image_paths_remove.
    by destruct (list_remove _ _).
  - intros e. apply keeps_oin_world, print_flag.
Qed.

Lemma process_batch_flag (c : Collab) path keep total b :
  keeps flag_set world (Observed.process_batch returns c path keep total b).
Proof.
  unfold Observed.process_batch.
  apply keeps_obind; [apply keeps_oin_world, print_flag | intros _].
  apply keeps_obind; [apply keeps_with_executor | intros images].
  destruct images.
  - apply keeps_oin_world, print_flag.
  - apply keeps_ofor_each. intros ii. apply process_page_flag.
Qed.

Lemma processing_flag (c : Collab) path mp sp keep :
  keeps flag_set world (Observed.processing returns c path mp sp keep).
Proof.
  unfold Observed.processing.
  apply keeps_obind.
  { unfold Observed.determine_total_pages. destruct mp; [apply keeps_oret|].
    apply keeps_obind; [apply keeps_with_executor | intros first_page].
    destruct first_page; [apply keeps_oraise | apply keeps_oret]. }
  intros total.
  apply keeps_obind; [apply keeps_oin_world, print_flag | intros _].
  apply keeps_ofor_each. intros b. apply process_batch_flag.
Qed.

Lemma cleanup_flag (c : Collab) keep :
  keeps flag_set world (Observed.cleanup c keep).
Proof.
  unfold Observed.cleanup. destruct keep; [apply keeps_oret|].
  intros f. apply keeps_ofor_each. intros p. unfold Observed.cleanup_one.
  apply keeps_obind; [apply keeps_oin_world, os_path_exists_flag | intros present].
  destruct present; [|apply keeps_oret].
  apply keeps_otry_except; [apply keeps_oin_world, remove_flag|].
  intros e. apply keeps_oin_world, print_flag.
Qed.

Lemma extract_body_flag (c : Collab) path mp sp keep :
  keeps flag_set id (Observed.extract_body returns c path mp sp keep).
Proof.
  unfold Observed.extract_body.
  apply keeps_obind; [apply print_flag | intros _].
  apply keeps_obind; [apply os_path_exists_flag | intros present].
  destruct (negb present); [apply keeps_oraise|].
  apply keeps_owith_frame.
  apply keeps_obind; [|intros _; by apply keeps_local].
  apply keeps_otry_finally; [|apply cleanup_flag].
  apply keeps_otry_except; [apply processing_flag|].
  intros e. unfold Observed.on_error. destruct (is_TimeoutError e);
    (apply keeps_obind; [apply keeps_oin_world, print_flag | intros _]);
    apply keeps_oraise.
Qed.

Lemma extract_flag_trace (c : Collab) path mp sp keep (w : World) :
  is_running w = false →
  ∃ t,
    (Observed.extract_text_from_pdf returns c path mp sp keep w).1
    = (set_running true w).1 :: t
    ∧ match (Observed.extract_text_from_pdf returns c path mp sp keep w).2 with
      | Some (w', _) =>
          ∃ t', t = t' ++ [w'] ∧ Forall flag_set t' ∧ is_running w' = false
      | None => Forall flag_set t
      end.
Proof.
  intros Hidle.
  destruct (extract_body_flag c path mp sp keep
              (mkWorld true (fs w) (stdout w)) eq_refl) as [Ht Hr].
  assert (Hval : Observed.extract_text_from_pdf returns c path mp sp keep w
    = match Observed.extract_body returns c path mp sp keep
              (mkWorld true (fs w) (stdout w)) with
      | (t, Some (w1, r)) =>
          (mkWorld true (fs w) (stdout w)
             :: t ++ [mkWorld false (fs w1) (stdout w1)],
           Some (mkWorld false (fs w1) (stdout w1), r))
      | (t, None) => (mkWorld true (fs w) (stdout w) :: t, None)
      end).
  { unfold Observed.extract_text_from_pdf. rewrite Hidle.
    unfold obind, effect, otry_finally. cbn [fst snd set_running].
    by destruct (Observed.extract_body returns c path mp sp keep _)
      as [t [[w1 r]|]]. }
  rewrite Hval.
  destruct (Observed.extract_body returns c path mp sp keep _)
    as [t [[w1 r]|]]; cbn [fst snd] in *.
  - eexists. split; [reflexivity|]. eexists. split; [reflexivity|]. by split.
  - eexists. split; [reflexivity|]. done.
Qed.

End FlagSet.

(** *** Lemmas for the claims *)

Lemma page_texts_os_remove {Image} (c : Collab Image) r b l :
  page_texts (with_os_remove c r) b l = page_texts c b l.
Proof. induction l as [|ii l IH]; simpl; [done|]. by rewrite IH. Qed.

Lemma batch_texts_os_remove {Image} (c : Collab Image) r path total l :
  batch_texts (with_os_remove c r) path total l = batch_texts c path total l.
Proof.
  induction l as [|b l IH]; simpl; [done|].
  rewrite IH. unfold batch_images. simpl.
  destruct (future_result 30 _) as [imgs|e]; [|done].
  by rewrite page_texts_os_remove.
Qed.

Lemma extract_outcome_os_remove {Image} (c : Collab Image) r path mp sp :
  extract_outcome (with_os_remove c r) path mp sp = extract_outcome c path mp sp.
Proof.
  unfold extract_outcome, inner_outcome.
  change (upper_bound (with_os_remove c r) path mp sp)
    with (upper_bound c path mp sp).
  destruct (upper_bound c path mp sp) as [total|e]; [|done].
  by rewrite batch_texts_os_remove.
Qed.

Lemma page_texts_rendered {Image} (c : Collab Image) (page : Z → Image)
    (text : Z → string) b k (l : list Z) :
  (∀ n p, image_save c (page n) p = None) →
  (∀ n, image_to_string c (page n) = Ok (text n)) →
  page_texts c b (combine (seq k (length (map page l))) (map page l))
  = Ok (map text l).
Proof.
  intros Hs Ho. revert k. induction l as [|n l IH]; intros k; simpl; [done|].
  by rewrite Hs, Ho, IH.
Qed.

(** One chunk of a rendered document: the call [convert_to_text] makes for
    the chunk starting at [start_page]. *)
Lemma get_text_chunk {Image} (c : Collab Image) (page : Z → Image)
    (text : Z → string) path n start_page (w : World Image) :
  renders c path n page →
  (∀ k p, image_save c (page k) p = None) →
  (∀ k, image_to_string c (page k) = Ok (text k)) →
  is_running w = false → is_Some (fs w !! path) → ¬ is_temp_image_path path →
  (get_text_from_pdf c path (Some CHUNK_SIZE) start_page w).2
  = Ok (str_join blank_line
          (map text (pages_between (Z.max start_page 1)
                                   (Z.min (start_page + CHUNK_SIZE - 1) n))))
  ∧ is_running (get_text_from_pdf c path (Some CHUNK_SIZE) start_page w).1 = false
  ∧ is_Some (fs (get_text_from_pdf c path (Some CHUNK_SIZE) start_page w).1 !! path).
Proof.
  intros Hr Hs Ho Hidle Hex Hnt. rewrite get_text_idle by done.
  cbn [fst snd]. split; [|split].
  - unfold extract_outcome, inner_outcome, upper_bound, batch_starts, CHUNK_SIZE.
    rewrite py_range_cons by (unfold BATCH_SIZE; lia).
    rewrite py_range_nil by (unfold BATCH_SIZE; lia).
    simpl batch_texts. unfold batch_images.
    replace (Z.min (start_page + BATCH_SIZE - 1) (10 + start_page - 1))
      with (start_page + 10 - 1) by (unfold BATCH_SIZE; lia).
    destruct (Hr start_page (start_page + 10 - 1)) as (d & Hd & ->).
    unfold future_result. simpl fst. simpl snd.
    rewrite (proj2 (Z.ltb_ge _ _) Hd). unfold enumerate.
    rewrite (page_texts_rendered c page text) by done.
    by rewrite app_nil_r.
  - by apply extract_idle_released.
  - by rewrite extract_idle_fs.
Qed.

Lemma join_of_empty_texts (l : list string) :
  Forall (λ t, t = "") l →
  newlines_only (str_join blank_line l) = true
  ∧ String.length (str_join blank_line l) = (2 * (length l - 1))%nat.
Proof.
  induction 1 as [|t l -> Hl [IH1 IH2]]; [done|].
  unfold str_join in *. destruct l as [|t' l]; [done|].
  change (String.concat blank_line ("" :: t' :: l))
    with (String "010" (String "010" (String.concat blank_line (t' :: l)))).
  remember (String.concat blank_line (t' :: l)) as rest.
  split.
  - exact IH1.
  - simpl String.length. rewrite IH2. simpl length. lia.
Qed.

(** ** The claims *)

(** Claim C1 fails on the program: the loop of [convert_to_text] keeps the
    chunk text in memory only.  After the export of a three-page
    [book.pdf] the only files are the document and the combined output; there
    is no [output/book_text_chunk_1.txt]. *)
Theorem export_writes_no_chunk_file :
  (convert_to_text (document 3 page_text) "book.pdf" (Some 3) idle_world).2
  = Ok (str_join blank_line ["page 1"; "page 2"; "page 3"])
  ∧ fs (convert_to_text (document 3 page_text) "book.pdf" (Some 3) idle_world).1
       !! "output/book_text_chunk_1.txt" = None
  ∧ map fst (map_to_list
       (fs (convert_to_text (document 3 page_text) "book.pdf" (Some 3)
              idle_world).1))
    = ["output/book_output.txt"; "book.pdf"].
Proof. repeat split; by vm_compute. Qed.

(** Claim C2 fails on the program: with [max_pages = None] the upper bound is
    the number of images the probe of page 1 returned, which is 1 for a
    document of three pages, and only page 1 is processed. *)
Theorem probe_counts_one_page :
  upper_bound (document 3 page_text) "book.pdf" None 1 = Ok 1
  ∧ (extract_text_from_pdf (document 3 page_text) "book.pdf" None 1 false
       idle_world).2 = Ok ["page 1"]
  ∧ (extract_text_from_pdf (document 3 page_text) "book.pdf" (Some 3) 1 false
       idle_world).2 = Ok ["page 1"; "page 2"; "page 3"].
Proof. repeat split; by vm_compute. Qed.



(** Claim C4, as the program has it.  When [max_pages >= 1], every chunk
    gave the empty text and the combined file can be written,
    [convert_to_text] returns the chunk texts joined by blank lines, a string
    of line breaks only (two for every chunk after the first) and so not the
    failure string, and writes this string to the combined file. *)
Theorem export_of_empty_chunks {Image} (c : Collab Image) path max_pages
    (w w' : World Image) all_text chunk_number :
  1 ≤ max_pages →
  chunk_loop c path max_pages (py_range 1 (max_pages + 1) CHUNK_SIZE) [] 1 w
  = (w', Ok (all_text, chunk_number)) →
  Forall (λ chunk_text, chunk_text = "") all_text →
  open_write c (output_path path) = None →
  convert_to_text c path (Some max_pages) w
  = (put_file (output_path path) (Txt (str_join blank_line all_text)) w',
     Ok (str_join blank_line all_text))
  ∧ newlines_only (str_join blank_line all_text) = true
  ∧ String.length (str_join blank_line all_text)
    = (2 * (length all_text - 1))%nat
  ∧ str_join blank_line all_text ≠ "Failed to generate study guide.".
Proof.
  intros Hm Hloop Hall Hw.
  destruct (join_of_empty_texts all_text Hall) as [Hn Hlen].
  split; [|split; [done|split; [done|]]].
  - pose proof (chunk_loop_length _ _ _ _ _ _ _ _ _ _ Hloop) as Hl.
    rewrite chunk_starts_some in Hl by done. simpl in Hl.
    unfold convert_to_text, bind. rewrite Hloop. cbn [fst snd].
    destruct all_text as [|t l]; [simpl in Hl; lia|].
    unfold write_text. by rewrite Hw.
  - intros Heq. rewrite Heq in Hn. discriminate.
Qed.

Lemma export_of_empty_chunks_witness :
  convert_to_text blank_document "book.pdf" (Some 11) idle_world
  = (put_file (output_path "book.pdf") (Txt (str_join blank_line [""; ""]))
       (chunk_loop blank_document "book.pdf" 11 [1; 11] [] 1 idle_world).1,
     Ok (str_join blank_line [""; ""])).
Proof.
  apply (export_of_empty_chunks blank_document "book.pdf" 11 idle_world
           (chunk_loop blank_document "book.pdf" 11 [1; 11] [] 1 idle_world).1
           [""; ""] 3).
  - lia.
  - vm_compute. reflexivity.
  - repeat constructor.
  - reflexivity.
Defined.

(** Claim C4 as stated fails: with two chunks that both give the empty text
    the export returns the blank line between them, not the failure string. *)
Lemma export_of_empty_chunks_returns_separators :
  (chunk_loop blank_document "book.pdf" 11 (py_range 1 (11 + 1) CHUNK_SIZE) [] 1
     idle_world).2 = Ok ([""; ""], 3)
  ∧ (convert_to_text blank_document "book.pdf" (Some 11) idle_world).2
    = Ok blank_line
  ∧ (convert_to_text blank_document "book.pdf" (Some 11) idle_world).2
    ≠ Ok "Failed to generate study guide.".
Proof.
  split; [by vm_compute|]. split; [by vm_compute|].
  vm_compute. discriminate.
Qed.

(** Claim C5, as the program has it.  On an idle extractor the first world
    a call of [extract_text_from_pdf] goes through is the one it started in
    with the flag set; the flag is set in every world it goes through after
    that, and the world it ends in, returning or raising, has the flag
    cleared (a call that never ends keeps it set); when every rasterisation
    returns, the call so observed ends as [extract_text_from_pdf] does.  While
    the flag is set, [extract_text_from_pdf] goes through no world at all and
    raises the busy error, as [get_text_from_pdf] does, both leaving the
    world as it is; [convert_to_text] with [max_pages >= 1] prints the
    heading of its first chunk and raises the same error, with the flag and
    the files untouched; [convert_to_text] with [max_pages < 1] calls no
    extraction and returns the failure string. *)
Theorem busy_flag_protocol {Image} (c : Collab Image)
    (returns : string → Z → Z → bool) path mp sp keep (w : World Image) :
  (is_running w = false →
   (∃ t,
      (Observed.extract_text_from_pdf returns c path mp sp keep w).1
      = mkWorld true (fs w) (stdout w) :: t
      ∧ match (Observed.extract_text_from_pdf returns c path mp sp keep w).2 with
        | Some (w', _) =>
            ∃ t', t = t' ++ [w']
                  ∧ Forall (λ v, is_running v = true) t'
                  ∧ is_running w' = false
        | None => Forall (λ v, is_running v = true) t
        end)
   ∧ ((∀ p first last, returns p first last = true) →
      (Observed.extract_text_from_pdf returns c path mp sp keep w).2
      = Some (extract_text_from_pdf c path mp sp keep w))
   ∧ is_running (extract_text_from_pdf c path mp sp keep w).1 = false)
  ∧ (is_running w = true →
     Observed.extract_text_from_pdf returns c path mp sp keep w
     = ([], Some (w, Raise busy))
     ∧ extract_text_from_pdf c path mp sp keep w = (w, Raise busy)
     ∧ get_text_from_pdf c path mp sp w = (w, Raise busy)
     ∧ (∀ max_pages, 1 ≤ max_pages →
          convert_to_text c path (Some max_pages) w
          = (mkWorld true (fs w) (stdout w ++ [first_chunk_line max_pages]),
             Raise busy))
     ∧ (∀ max_pages, max_pages < 1 →
          convert_to_text c path (Some max_pages) w
          = (w, Ok "Failed to generate study guide."))).
Proof.
  split.
  - intros Hidle. split; [|split].
    + apply (extract_flag_trace returns c path mp sp keep w Hidle).
    + intros Hr. by apply extract_text_from_pdf_observed.
    + by apply extract_idle_released.
  - intros Hbusy. repeat split.
    + unfold Observed.extract_text_from_pdf. by rewrite Hbusy.
    + by apply extract_busy.
    + by apply get_text_busy.
    + intros max_pages Hm. apply convert_to_text_first_raises; [done|].
      rewrite get_text_busy by done. simpl. by rewrite Hbusy.
    + intros max_pages Hm. by apply convert_to_text_no_pages.
Qed.

Lemma busy_flag_protocol_witness :
  (Observed.extract_text_from_pdf (λ _ _ _, true) (document 3 page_text)
     "book.pdf" (Some 3) 1 false idle_world).2
  = Some (extract_text_from_pdf (document 3 page_text) "book.pdf" (Some 3) 1
            false idle_world)
  ∧ Observed.extract_text_from_pdf (λ _ _ _, true) (document 3 page_text)
      "book.pdf" (Some 3) 1 false busy_world
    = ([], Some (busy_world, Raise busy))
  ∧ convert_to_text (document 3 page_text) "book.pdf" (Some 3) busy_world
    = (mkWorld true (fs busy_world) (stdout busy_world ++ [first_chunk_line 3]),
       Raise busy).
Proof.
  split; [|split].
  - apply (proj1 (busy_flag_protocol (document 3 page_text) (λ _ _ _, true)
                    "book.pdf" (Some 3) 1 false idle_world) eq_refl).
    reflexivity.
  - apply (proj2 (busy_flag_protocol (document 3 page_text) (λ _ _ _, true)
                    "book.pdf" (Some 3) 1 false busy_world) eq_refl).
  - apply (proj2 (busy_flag_protocol (document 3 page_text) (λ _ _ _, true)
                    "book.pdf" (Some 3) 1 false busy_world) eq_refl). lia.
Defined.

(** The worlds a call on a one-page document goes through, by their flag:
    set from the first one on, cleared in the last. *)
Example flag_along_a_call :
  map is_running
    (Observed.extract_text_from_pdf (λ _ _ _, true) (document 1 page_text)
       "book.pdf" (Some 1) 1 false idle_world).1
  = [true; true; true; true; true; true; true; true; true; true; false].
Proof. reflexivity. Qed.

(** Claim C5 as stated fails: an export without pages, called while the flag
    is set, returns normally. *)
Lemma export_while_busy_returns :
  is_running busy_world = true
  ∧ convert_to_text (document 3 page_text) "book.pdf" (Some 0) busy_world
    = (busy_world, Ok "Failed to generate study guide.")
  ∧ (convert_to_text (document 3 page_text) "book.pdf" (Some 0) busy_world).2
    ≠ Raise busy.
Proof. repeat split. done. Qed.

(** Claim C6, as the program has it.  After a call of
    [extract_text_from_pdf] with
    [save_images = False], however it ends, every path [p] is in one of three
    cases: the file is as it was before the call, or there is no file, or
    [os.remove] fails for [p] and the failure is in the log.  Only paths of
    page images are touched at all.  So a page image written by the call is
    gone unless its own removal failed, and a failing removal touches neither
    the other files nor the result: the call returns or raises the same as
    with any other [os.remove]. *)
Theorem temp_images_removed {Image} (c : Collab Image) path mp sp (w : World Image) :
  (∀ p,
     fs (extract_text_from_pdf c path mp sp false w).1 !! p = fs w !! p
     ∨ fs (extract_text_from_pdf c path mp sp false w).1 !! p = None
     ∨ ∃ e, os_remove c p = Some e
            ∧ cleanup_error p e
              ∈ stdout (extract_text_from_pdf c path mp sp false w).1)
  ∧ (∀ p, ¬ is_temp_image_path p →
       fs (extract_text_from_pdf c path mp sp false w).1 !! p = fs w !! p)
  ∧ (∀ r, (extract_text_from_pdf (with_os_remove c r) path mp sp false w).2
          = (extract_text_from_pdf c path mp sp false w).2).
Proof.
  split; [|split].
  - intros p. destruct (is_running w) eqn:Hrun.
    + left. by rewrite extract_busy.
    + by apply extract_idle_cleanup.
  - intros p Hp. destruct (is_running w) eqn:Hrun.
    + by rewrite extract_busy.
    + by apply extract_idle_fs.
  - intros r. destruct (is_running w) eqn:Hrun.
    + by rewrite !extract_busy.
    + destruct (fs w !! path) as [d|] eqn:Hex.
      * rewrite !extract_idle_outcome by eauto. apply extract_outcome_os_remove.
      * by rewrite !extract_missing.
Qed.

(** Claim C6 as stated fails: when [os.remove] fails, the page image the call
    wrote, which was not there before, is still there after a call that
    returns. *)
Lemma page_image_left_behind :
  fs idle_world !! "output/temp_page_1.png" = None
  ∧ (extract_text_from_pdf (document_stuck 3 page_text) "book.pdf" (Some 1) 1
       false idle_world).2 = Ok ["page 1"]
  ∧ fs (extract_text_from_pdf (document_stuck 3 page_text) "book.pdf" (Some 1)
          1 false idle_world).1 !! "output/temp_page_1.png"
    = Some (Png 1).
Proof. repeat split. Qed.

(** The three endings of the page images of a three-page [book.pdf]: removed,
    left behind by a failing [os.remove] that is logged at both attempts while
    the texts are returned all the same, and kept on request. *)
Example page_images_removed :
  map fst (map_to_list
    (fs (extract_text_from_pdf (document 3 page_text) "book.pdf" (Some 3) 1
           false idle_world).1))
  = ["book.pdf"].
Proof. by vm_compute. Qed.

Example page_images_stuck :
  extract_text_from_pdf (document_stuck 3 page_text) "book.pdf" (Some 1) 1 false
    idle_world
  = (mkWorld false
       (<["output/temp_page_1.png" := Png 1]> (<["book.pdf" := Blob]> ∅))
       ["Extracting text from PDF: book.pdf";
        "Processing until page 1 in batches of 10";
        "Processing batch: pages 1 to 1";
        "Saving temporary image: output/temp_page_1.png";
        "Extracted text from page 1";
        "Error cleaning up temporary file output/temp_page_1.png: Permission denied";
        "Error cleaning up temporary file output/temp_page_1.png: Permission denied"],
     Ok ["page 1"]).
Proof. reflexivity. Qed.

Example page_images_kept :
  fs (extract_text_from_pdf (document 3 page_text) "book.pdf" (Some 3) 1 true
        idle_world).1
  = <["output/temp_page_3.png" := Png 3]>
      (<["output/temp_page_2.png" := Png 2]>
         (<["output/temp_page_1.png" := Png 1]> (<["book.pdf" := Blob]> ∅))).
Proof. reflexivity. Qed.

(** Claim C7.  Take a call on an idle extractor for an existing file whose
    upper bound is [total], where every batch is rasterised in time, without
    an exception and with at most one image per page of the batch, and where
    every image is saved and read by the OCR engine without an exception.
    The call returns one text per image the rasteriser yielded, in the order
    of the page numbers of these images; these page numbers increase strictly
    and lie between [start_page] and [total]; and for every batch without an
    image the warning is in the log while the call still returns. *)
Theorem extract_pages_in_order {Image} (c : Collab Image) (ocr : Image → string)
    path mp sp keep total (w : World Image) :
  is_running w = false → is_Some (fs w !! path) →
  upper_bound c path mp sp = Ok total →
  (∀ b, b ∈ batch_starts sp total →
     ∃ imgs, batch_images c path total b = Ok imgs
             ∧ Z.of_nat (length imgs) ≤ Z.min (b + BATCH_SIZE - 1) total - b + 1) →
  (∀ x, In x (numbered_pages c path total (batch_starts sp total)) →
     image_save c x.2 (temp_image_path x.1) = None
     ∧ image_to_string c x.2 = Ok (ocr x.2)) →
  ∃ texts,
    (extract_text_from_pdf c path mp sp keep w).2 = Ok texts
    ∧ texts = map (λ x, ocr x.2)
                  (numbered_pages c path total (batch_starts sp total))
    ∧ length texts
      = length (numbered_pages c path total (batch_starts sp total))
    ∧ StronglySorted Z.lt
        (map fst (numbered_pages c path total (batch_starts sp total)))
    ∧ Forall (λ n, sp ≤ n ≤ total)
        (map fst (numbered_pages c path total (batch_starts sp total)))
    ∧ (∀ b, b ∈ batch_starts sp total → batch_images c path total b = Ok [] →
         no_images_warning total b
           ∈ stdout (extract_text_from_pdf c path mp sp keep w).1).
Proof.
  intros Hidle Hex Hu Hr Ho.
  assert (Hb : batch_texts c path total (batch_starts sp total)
               = Ok (map (λ x, ocr x.2)
                      (numbered_pages c path total (batch_starts sp total)))).
  { apply batch_texts_all; [|done].
    intros b Hb. destruct (Hr b Hb) as (imgs & Hi & _). eauto. }
  assert (Hi : inner_outcome c path mp sp
               = Ok (map (λ x, ocr x.2)
                      (numbered_pages c path total (batch_starts sp total)))).
  { unfold inner_outcome. by rewrite Hu. }
  destruct (numbered_pages_ascending c path total (batch_starts sp total))
    as [Hs Hn].
  { apply py_range_spaced. by unfold BATCH_SIZE. }
  { intros b Hb' imgs Himgs. destruct (Hr b Hb') as (imgs' & Hi' & Hl).
    congruence. }
  eexists. split; [|split; [reflexivity|]].
  { rewrite extract_idle_outcome by done. unfold extract_outcome. by rewrite Hi. }
  split; [by rewrite length_map|]. split; [done|]. split.
  - apply Forall_forall. intros n Hin. apply list_elem_of_In in Hin.
    destruct (Hn n Hin) as (b & Hb' & Hbn).
    apply py_range_bounds in Hb'; [|by unfold BATCH_SIZE]. lia.
  - intros b Hb' Hempty. by eapply extract_idle_warning.
Qed.

(** A document of 12 pages read from page 1 with [max_pages = 12]. *)
Lemma extract_pages_in_order_witness :
  ∃ texts,
    (extract_text_from_pdf (document 12 page_text) "book.pdf" (Some 12) 1 false
       idle_world).2 = Ok texts
    ∧ length texts = 12%nat.
Proof.
  destruct (extract_pages_in_order (document 12 page_text) page_text "book.pdf"
              (Some 12) 1 false 12 idle_world) as (texts & H1 & H2 & H3 & _).
  - reflexivity.
  - by eexists.
  - reflexivity.
  - intros b Hb. vm_compute in Hb.
    apply elem_of_cons in Hb as [->|Hb]; [|apply elem_of_cons in Hb as [->|Hb]].
    + eexists. split; [reflexivity | vm_compute; discriminate].
    + eexists. split; [reflexivity | vm_compute; discriminate].
    + by apply elem_of_nil in Hb.
  - intros x Hx. split; reflexivity.
  - exists texts. split; [exact H1|]. rewrite H3. reflexivity.
Defined.

(** Claim C8 fails on the program for a rasteriser that never returns:
    [future.result] raises [TimeoutError] inside the [with] block, whose exit
    waits for the worker, so the call never ends; it neither raises nor
    cleans up, the last world it goes through has the flag set and no
    timeout line.  A rasteriser that returns after 31 seconds gives what the
    claim says. *)
Theorem rasteriser_never_returns :
  (Observed.extract_text_from_pdf (λ _ _ _, false) (document 3 page_text)
     "book.pdf" (Some 3) 1 false idle_world).2 = None
  ∧ last (Observed.extract_text_from_pdf (λ _ _ _, false)
            (document 3 page_text) "book.pdf" (Some 3) 1 false idle_world).1
    = Some (mkWorld true (fs idle_world)
              ["Extracting text from PDF: book.pdf";
               "Processing until page 3 in batches of 10";
               "Processing batch: pages 1 to 3"])
  ∧ (Observed.extract_text_from_pdf (λ _ _ _, true) (slow_document 31)
       "book.pdf" (Some 3) 1 false idle_world).2
    = Some (mkWorld false (fs idle_world)
              ["Extracting text from PDF: book.pdf";
               "Processing until page 3 in batches of 10";
               "Processing batch: pages 1 to 3";
               "Timeout error: "],
            Raise (Exception "PDF processing timed out. The file might be too large or corrupt.")).
Proof. repeat split. Qed.

(** Timeouts of a rasteriser that returns.  When the probe of page 1 takes
    more than 10 seconds, or the rasterisation of a batch takes more than 30
    seconds after the batches before it went through, the call raises the
    generic exception; the timeout is logged by the handler, the world the
    caller gets is the one the cleanup leaves when run on the frame of the
    handler, with the flag cleared. *)
Theorem rasterisation_timeout {Image} (c : Collab Image) path mp sp keep (w : World Image) :
  is_running w = false → is_Some (fs w !! path) →
  probe_times_out c path mp ∨ batch_times_out c path mp sp →
  (extract_text_from_pdf c path mp sp keep w).2
  = Raise (Exception "PDF processing timed out. The file might be too large or corrupt.")
  ∧ "Timeout error: " ∈ stdout (extract_text_from_pdf c path mp sp keep w).1
  ∧ "Timeout error: "
    ∈ stdout (world (frame_before_cleanup c path mp sp keep w))
  ∧ (extract_text_from_pdf c path mp sp keep w).1
    = (set_running false
         (world (cleanup c keep (frame_before_cleanup c path mp sp keep w)).1)).1
  ∧ is_running (extract_text_from_pdf c path mp sp keep w).1 = false
  ∧ (keep = false → ∀ p,
       fs (extract_text_from_pdf c path mp sp keep w).1 !! p = fs w !! p
       ∨ fs (extract_text_from_pdf c path mp sp keep w).1 !! p = None
       ∨ ∃ e, os_remove c p = Some e
              ∧ cleanup_error p e
                ∈ stdout (extract_text_from_pdf c path mp sp keep w).1).
Proof.
  intros Hidle Hex Ht.
  assert (Hi : inner_outcome c path mp sp = Raise (TimeoutError "")).
  { unfold inner_outcome.
    destruct Ht as [[-> Hp]|(total & pre & b & post & ts & Hu & Hs & Hpre & Hb)].
    - unfold upper_bound, future_result.
      by rewrite (proj2 (Z.ltb_lt _ _) Hp).
    - rewrite Hu, Hs, batch_texts_app, Hpre. simpl.
      unfold batch_images, future_result.
      by rewrite (proj2 (Z.ltb_lt _ _) Hb). }
  repeat split.
  - rewrite extract_idle_outcome by done. unfold extract_outcome. by rewrite Hi.
  - by apply (extract_idle_timeout c path mp sp keep w (TimeoutError "")).
  - by apply (frame_before_cleanup_timeout c path mp sp keep w (TimeoutError "")).
  - by rewrite extract_text_from_pdf_unfold.
  - by apply extract_idle_released.
  - intros -> p. by apply extract_idle_cleanup.
Qed.

Lemma rasterisation_timeout_witness :
  (extract_text_from_pdf (slow_document 31) "book.pdf" (Some 3) 1 false
     idle_world).2
  = Raise (Exception "PDF processing timed out. The file might be too large or corrupt.")
  ∧ (extract_text_from_pdf (slow_document 11) "book.pdf" None 1 false
       idle_world).2
    = Raise (Exception "PDF processing timed out. The file might be too large or corrupt.").
Proof.
  split.
  - apply (rasterisation_timeout (slow_document 31) "book.pdf" (Some 3) 1 false
             idle_world); [reflexivity | by eexists |].
    right. exists 3, [], 1, [], []. repeat split; vm_compute; reflexivity.
  - apply (rasterisation_timeout (slow_document 11) "book.pdf" None 1 false
             idle_world); [reflexivity | by eexists |].
    left. split; [reflexivity | vm_compute; reflexivity].
Defined.

(** Claim C9, as the program has it.  On an idle extractor and for a path
    that is not a file, [extract_text_from_pdf], [get_text_from_pdf] and
    [convert_to_text] with [max_pages >= 1] raise [FileNotFoundError] with
    the file system as it was, so before any page image is written;
    [convert_to_text] with [max_pages < 1] never looks at the path and
    returns the failure string. *)
Theorem missing_file_not_found {Image} (c : Collab Image) path (w : World Image) :
  is_running w = false → fs w !! path = None →
  (∀ mp sp keep,
     (extract_text_from_pdf c path mp sp keep w).2
     = Raise (FileNotFoundError ("PDF file not found: " +:+ path))
     ∧ fs (extract_text_from_pdf c path mp sp keep w).1 = fs w)
  ∧ (∀ mp sp,
       (get_text_from_pdf c path mp sp w).2
       = Raise (FileNotFoundError ("PDF file not found: " +:+ path))
       ∧ fs (get_text_from_pdf c path mp sp w).1 = fs w)
  ∧ (∀ max_pages, 1 ≤ max_pages →
       (convert_to_text c path (Some max_pages) w).2
       = Raise (FileNotFoundError ("PDF file not found: " +:+ path))
       ∧ fs (convert_to_text c path (Some max_pages) w).1 = fs w)
  ∧ (∀ max_pages, max_pages < 1 →
       convert_to_text c path (Some max_pages) w
       = (w, Ok "Failed to generate study guide.")).
Proof.
  intros Hidle Hex. split; [|split; [|split]]; [intros mp sp keep; split
    | intros mp sp; split | intros max_pages H; split | ].
  - by rewrite extract_missing.
  - by rewrite extract_missing.
  - by rewrite get_text_missing.
  - by rewrite get_text_missing.
  - pose proof (get_text_missing c path (Some CHUNK_SIZE) 1
                  (print (first_chunk_line max_pages) w).1 Hidle Hex) as Hg.
    by rewrite (convert_to_text_first_raises c path max_pages w _ _ H Hg).
  - pose proof (get_text_missing c path (Some CHUNK_SIZE) 1
                  (print (first_chunk_line max_pages) w).1 Hidle Hex) as Hg.
    by rewrite (convert_to_text_first_raises c path max_pages w _ _ H Hg).
  - intros. by apply convert_to_text_no_pages.
Qed.

Lemma missing_file_not_found_witness :
  (extract_text_from_pdf (document 3 page_text) "lost.pdf" None 1 false
     idle_world).2
  = Raise (FileNotFoundError "PDF file not found: lost.pdf")
  ∧ fs (extract_text_from_pdf (document 3 page_text) "lost.pdf" None 1 false
          idle_world).1 = fs idle_world.
Proof.
  apply (missing_file_not_found (document 3 page_text) "lost.pdf" idle_world);
    reflexivity.
Defined.

(** Claim C9 as stated fails: for a path that is not a file, an export
    without pages returns normally, and a call on a busy extractor raises the
    busy error, which is a [RuntimeError]. *)
Lemma export_of_missing_file_returns :
  fs idle_world !! "lost.pdf" = None
  ∧ is_running idle_world = false
  ∧ convert_to_text (document 3 page_text) "lost.pdf" (Some 0) idle_world
    = (idle_world, Ok "Failed to generate study guide.")
  ∧ extract_text_from_pdf (document 3 page_text) "lost.pdf" None 1 false
      busy_world
    = (busy_world,
       Raise (RuntimeError "Please wait for the previous extraction to finish.")).
Proof. repeat split. Qed.

(** Claim C10.  With [max_pages < 1] the chunk loop of [convert_to_text] has
    no iteration, the call returns the string
    ["Failed to generate study guide."], and the world (hence every file) is
    left as it was: no chunk file and no combined file is written. *)
Theorem export_without_pages {Image} (c : Collab Image) path max_pages (w : World Image) :
  max_pages < 1 →
  py_range 1 (max_pages + 1) CHUNK_SIZE = []
  ∧ convert_to_text c path (Some max_pages) w
    = (w, Ok "Failed to generate study guide.").
Proof.
  intros H. split.
  - by apply chunk_starts_none.
  - by apply convert_to_text_no_pages.
Qed.

Lemma export_without_pages_witness :
  0 < 1
  ∧ py_range 1 (0 + 1) CHUNK_SIZE = []
  ∧ convert_to_text (document 3 page_text) "book.pdf" (Some 0) idle_world
    = (idle_world, Ok "Failed to generate study guide.").
Proof.
  split; [lia|].
  apply (export_without_pages (document 3 page_text) "book.pdf" 0 idle_world).
  lia.
Defined.

(** ** Further properties *)

(** *** The batches of a page range *)

Lemma pages_between_empty first last :
  last < first → pages_between first last = [].
Proof.
  intros H. unfold pages_between. by replace (Z.to_nat _) with O by lia.
Qed.

Lemma map_seq_from {A} (f : nat → A) a n :
  map f (seq a n) = map (λ k, f (a + k)%nat) (seq 0 n).
Proof.
  revert a. induction n as [|n IH]; intros a; simpl; [done|].
  f_equal; [f_equal; lia|].
  rewrite IH, <- seq_shift, map_map. apply map_ext. intros k. f_equal. lia.
Qed.

Lemma pages_between_app first mid last :
  first ≤ mid → mid ≤ last + 1 →
  pages_between first (mid - 1) ++ pages_between mid last
  = pages_between first last.
Proof.
  intros H1 H2. unfold pages_between.
  replace (Z.to_nat (last - first + 1))
    with (Z.to_nat (mid - 1 - first + 1) + Z.to_nat (last - mid + 1))%nat by lia.
  rewrite seq_app, map_app. f_equal. simpl.
  rewrite (map_seq_from _ (Z.to_nat (mid - 1 - first + 1))).
  apply map_ext. intros k. lia.
Qed.

Lemma pages_between_length first last :
  length (pages_between first last) = Z.to_nat (last - first + 1).
Proof. unfold pages_between. by rewrite length_map, length_seq. Qed.

Lemma pages_between_elem first last k :
  k ∈ pages_between first last ↔ first ≤ k ≤ last.
Proof.
  unfold pages_between. rewrite list_elem_of_In, in_map_iff. split.
  - intros (i & <- & Hi). apply in_seq in Hi. lia.
  - intros H. exists (Z.to_nat (k - first)). split; [lia|]. apply in_seq. lia.
Qed.

(** The batches of [first..total], each cut at [cap], cover [first..cap]. *)
Lemma batches_cover (n : nat) : ∀ first total cap,
  Z.to_nat (total + 1 - first) = n → cap ≤ total →
  flat_map (λ b, pages_between b (Z.min (b + BATCH_SIZE - 1) cap))
           (batch_starts first total)
  = pages_between first cap.
Proof.
  unfold batch_starts, BATCH_SIZE.
  induction n as [n IH] using lt_wf_ind. intros first total cap Hn Hc.
  destruct (Z_lt_le_dec total first) as [Hlt|Hle].
  - rewrite py_range_nil by lia. simpl. by rewrite pages_between_empty by lia.
  - rewrite py_range_cons by lia. simpl.
    rewrite (IH (Z.to_nat (total + 1 - (first + 10)))) with (total := total)
      by lia.
    destruct (Z_lt_le_dec cap (first + 10)) as [H1|H1].
    + rewrite (pages_between_empty (first + 10)) by lia.
      rewrite app_nil_r. f_equal. lia.
    + replace (Z.min (first + 10 - 1) cap) with (first + 10 - 1) by lia.
      apply pages_between_app; lia.
Qed.

(** Property X1.  The batches of [extract_text_from_pdf] partition the page
    range: the ranges [batch_start .. min(batch_start + 9, total_pages)] of
    the batch starts, taken in order, are exactly the pages
    [start_page .. total_pages], every batch starts inside the range and has
    between one and ten pages. *)
Theorem batches_partition_range start_page total_pages :
  flat_map (λ batch_start,
              pages_between batch_start
                (Z.min (batch_start + BATCH_SIZE - 1) total_pages))
           (batch_starts start_page total_pages)
  = pages_between start_page total_pages
  ∧ Forall (λ batch_start,
              start_page ≤ batch_start ≤ total_pages
              ∧ (1 ≤ length (pages_between batch_start
                    (Z.min (batch_start + BATCH_SIZE - 1) total_pages)) ≤ 10)%nat)
           (batch_starts start_page total_pages).
Proof.
  split.
  - by apply (batches_cover _ start_page total_pages total_pages eq_refl).
  - apply Forall_forall. intros b Hb.
    apply py_range_bounds in Hb; [|by unfold BATCH_SIZE].
    rewrite pages_between_length. unfold BATCH_SIZE. lia.
Qed.

(** *** A rendered document *)


Lemma batch_texts_rendered {Image} (c : Collab Image) (page : Z → Image) (text : Z → string)
    path n total l :
  renders c path n page →
  (∀ k p, image_save c (page k) p = None) →
  (∀ k, image_to_string c (page k) = Ok (text k)) →
  Forall (λ b, 1 ≤ b) l →
  batch_texts c path total l
  = Ok (map text
          (flat_map (λ b, pages_between b
                            (Z.min (b + BATCH_SIZE - 1) (Z.min total n))) l)).
Proof.
  intros Hr Hs Ho. induction 1 as [|b l Hb Hl IH]; [done|].
  simpl. unfold batch_images at 1.
  destruct (Hr b (Z.min (b + BATCH_SIZE - 1) total)) as (d & Hd & ->).
  unfold future_result. cbn [fst snd]. rewrite (proj2 (Z.ltb_ge _ _) Hd).
  unfold enumerate. rewrite (page_texts_rendered c page text) by done.
  rewrite IH, map_app.
  replace (Z.max b 1) with b by lia.
  by replace (Z.min (Z.min (b + BATCH_SIZE - 1) total) n)
    with (Z.min (b + BATCH_SIZE - 1) (Z.min total n)) by lia.
Qed.

Lemma extract_rendered {Image} (c : Collab Image) (page : Z → Image) (text : Z → string)
    path n mp sp keep total (w : World Image) :
  renders c path n page →
  (∀ k p, image_save c (page k) p = None) →
  (∀ k, image_to_string c (page k) = Ok (text k)) →
  is_running w = false → is_Some (fs w !! path) →
  upper_bound c path mp sp = Ok total → 1 ≤ sp →
  (extract_text_from_pdf c path mp sp keep w).2
  = Ok (map text (pages_between sp (Z.min total n))).
Proof.
  intros Hr Hs Ho Hidle Hex Hu Hsp.
  rewrite extract_idle_outcome by done.
  unfold extract_outcome, inner_outcome. rewrite Hu.
  rewrite (batch_texts_rendered c page text path n); try done.
  - by rewrite (batches_cover _ sp total (Z.min total n) eq_refl) by lia.
  - apply Forall_forall. intros b Hb.
    apply py_range_bounds in Hb; [lia | by unfold BATCH_SIZE].
Qed.

(** Property X2.  For a document of [n] pages that is rendered, saved and
    read without an exception, on an idle extractor and with
    [start_page >= 1], [extract_text_from_pdf(path, max_pages, start_page)]
    returns the texts of the pages [start_page .. min(start_page + max_pages
    - 1, n)] in order, and [get_text_from_pdf] returns them joined by blank
    lines. *)
Theorem extract_page_window {Image} (c : Collab Image) (page : Z → Image) (text : Z → string)
    path n max_pages start_page save_images (w : World Image) :
  renders c path n page →
  (∀ k p, image_save c (page k) p = None) →
  (∀ k, image_to_string c (page k) = Ok (text k)) →
  is_running w = false → is_Some (fs w !! path) → 1 ≤ start_page →
  (extract_text_from_pdf c path (Some max_pages) start_page save_images w).2
  = Ok (map text (pages_between start_page
                    (Z.min (start_page + max_pages - 1) n)))
  ∧ (get_text_from_pdf c path (Some max_pages) start_page w).2
    = Ok (str_join blank_line
            (map text (pages_between start_page
                         (Z.min (start_page + max_pages - 1) n)))).
Proof.
  intros Hr Hs Ho Hidle Hex Hsp.
  assert (Hu : upper_bound c path (Some max_pages) start_page
               = Ok (start_page + max_pages - 1)).
  { unfold upper_bound. f_equal. lia. }
  split.
  - by apply (extract_rendered c page text path n _ _ _ _ w Hr Hs Ho).
  - rewrite get_text_idle by done. cbn [snd].
    pose proof (extract_rendered c page text path n _ _ false _ w
                  Hr Hs Ho Hidle Hex Hu Hsp) as H.
    rewrite extract_idle_outcome in H by done. by rewrite H.
Qed.

Lemma extract_page_window_witness :
  (extract_text_from_pdf (document 25 page_text) "book.pdf" (Some 12) 21 false
     idle_world).2
  = Ok (map page_text (pages_between 21 (Z.min (21 + 12 - 1) 25))).
Proof.
  apply (extract_page_window (document 25 page_text) (λ k, k) page_text
           "book.pdf" 25 12 21 false idle_world).
  - intros first last. exists 1. split; [lia|]. simpl. by rewrite map_id.
  - reflexivity.
  - reflexivity.
  - reflexivity.
  - by eexists.
  - lia.
Defined.

(** Property X3.  With [max_pages = None], for a rendered document whose
    probe of page 1 answers within ten seconds, the upper bound is 1: the call
    returns the text of page 1 when [start_page = 1] and the empty list for
    every later [start_page]. *)
Theorem extract_without_limit {Image} (c : Collab Image) (page : Z → Image) (text : Z → string)
    path n start_page save_images (w : World Image) :
  renders c path n page → 1 ≤ n →
  (convert_from_path c path 1 1).1 ≤ 10 →
  (∀ k p, image_save c (page k) p = None) →
  (∀ k, image_to_string c (page k) = Ok (text k)) →
  is_running w = false → is_Some (fs w !! path) → 1 ≤ start_page →
  upper_bound c path None start_page = Ok 1
  ∧ (extract_text_from_pdf c path None start_page save_images w).2
    = Ok (if decide (start_page = 1) then [text 1] else []).
Proof.
  intros Hr Hn Hd Hs Ho Hidle Hex Hsp.
  assert (Hu : upper_bound c path None start_page = Ok 1).
  { unfold upper_bound, future_result. rewrite (proj2 (Z.ltb_ge _ _) Hd).
    destruct (Hr 1 1) as (d & _ & ->). cbn [snd].
    by replace (Z.min 1 n) with 1 by lia. }
  split; [done|].
  rewrite (extract_rendered c page text path n None start_page save_images 1 w)
    by done.
  replace (Z.min 1 n) with 1 by lia.
  destruct (decide (start_page = 1)) as [->|Hne]; [done|].
  by rewrite pages_between_empty by lia.
Qed.

Lemma extract_without_limit_witness :
  (extract_text_from_pdf (document 25 page_text) "book.pdf" None 2 false
     idle_world).2 = Ok [].
Proof.
  apply (extract_without_limit (document 25 page_text) (λ k, k) page_text
           "book.pdf" 25 2 false idle_world).
  - intros first last. exists 1. split; [lia|]. simpl. by rewrite map_id.
  - lia.
  - vm_compute. discriminate.
  - reflexivity.
  - reflexivity.
  - reflexivity.
  - by eexists.
  - lia.
Defined.

(** *** Calls that process no page *)

Lemma extract_no_pages {Image} (c : Collab Image) path mp sp keep total
    (w : World Image) :
  is_running w = false → is_Some (fs w !! path) →
  upper_bound c path mp sp = Ok total → total < sp →
  extract_text_from_pdf c path mp sp keep w
  = (mkWorld false (fs w)
       (stdout w ++ ["Extracting text from PDF: " +:+ path;
                     "Processing until page " +:+ str_int total
                     +:+ " in batches of " +:+ str_int BATCH_SIZE]),
     Ok []).
Proof.
  intros Hidle Hex Hu Hlt. rewrite extract_text_from_pdf_unfold by done.
  assert (Hf : frame_before_cleanup c path mp sp keep w
               = mkFrame (mkWorld true (fs w)
                   ((stdout w ++ ["Extracting text from PDF: " +:+ path])
                    ++ ["Processing until page " +:+ str_int total
                        +:+ " in batches of " +:+ str_int BATCH_SIZE]))
                   [] []).
  { unfold frame_before_cleanup, try_except, processing, bind.
    rewrite determine_total_pages_frame, Hu.
    rewrite py_range_nil by (unfold BATCH_SIZE; lia). reflexivity. }
  rewrite Hf. unfold extract_outcome, inner_outcome, batch_starts. rewrite Hu.
  rewrite py_range_nil by (unfold BATCH_SIZE; lia).
  rewrite <- app_assoc. by destruct keep.
Qed.

(** Property X4.  With [max_pages <= 0] on an idle extractor and an
    existing file, [extract_text_from_pdf] consults no collaborator: it prints
    its two headings, leaves every file as it is and returns the empty list,
    so [get_text_from_pdf] returns the empty string. *)
Theorem extract_nothing_to_do {Image} (c : Collab Image) path max_pages
    start_page save_images (w : World Image) :
  is_running w = false → is_Some (fs w !! path) → max_pages ≤ 0 →
  extract_text_from_pdf c path (Some max_pages) start_page save_images w
  = (mkWorld false (fs w)
       (stdout w ++ ["Extracting text from PDF: " +:+ path;
                     "Processing until page "
                     +:+ str_int (max_pages + start_page - 1)
                     +:+ " in batches of 10"]),
     Ok [])
  ∧ (get_text_from_pdf c path (Some max_pages) start_page w).2 = Ok "".
Proof.
  intros Hidle Hex Hm.
  assert (H : ∀ keep,
    extract_text_from_pdf c path (Some max_pages) start_page keep w
    = (mkWorld false (fs w)
         (stdout w ++ ["Extracting text from PDF: " +:+ path;
                       "Processing until page "
                       +:+ str_int (max_pages + start_page - 1)
                       +:+ " in batches of 10"]),
       Ok [])).
  { intros keep.
    apply (extract_no_pages c path (Some max_pages) start_page keep
             (max_pages + start_page - 1) w); try done. lia. }
  split; [apply H|]. unfold get_text_from_pdf, bind. by rewrite H.
Qed.

Lemma extract_nothing_to_do_witness :
  (get_text_from_pdf (document 3 page_text) "book.pdf" (Some (-2)) 1
     idle_world).2 = Ok "".
Proof.
  apply (extract_nothing_to_do (document 3 page_text) "book.pdf" (-2) 1 false
           idle_world); [reflexivity | by eexists | lia].
Defined.

(** *** Exceptions of the collaborators *)

Lemma on_error_logged {Image} e (f : Frame Image) :
  error_line e ∈ stdout (world (on_error e f).1).
Proof.
  unfold on_error, error_line. destruct (is_TimeoutError e); simpl;
    apply elem_of_app; right; apply list_elem_of_here.
Qed.

Lemma extract_idle_error {Image} (c : Collab Image) path mp sp keep
    (w : World Image) e :
  is_running w = false → is_Some (fs w !! path) →
  inner_outcome c path mp sp = Raise e →
  error_line e ∈ stdout (extract_text_from_pdf c path mp sp keep w).1.
Proof.
  intros Hidle Hex Hi. rewrite extract_text_from_pdf_unfold by done.
  unfold set_running. cbn [fst stdout].
  eapply evolves_stdout.
  - apply cleanup_spec, frame_before_cleanup_tracked.
  - unfold frame_before_cleanup, try_except.
    set (f0 := mkFrame _ [] []).
    pose proof (processing_outcome c path mp sp keep f0) as Hp.
    rewrite Hi in Hp.
    destruct (processing c path mp sp keep f0) as [f1 r1]; simpl in *; subst.
    apply on_error_logged.
Qed.

(** Property X5.  When the first exception met while rasterising, saving and
    reading the pages is [e], the call raises [e] itself unless [e] is a
    [TimeoutError], which is replaced by the generic timed-out exception
    wherever it came from; the matching line is in the log and the flag is
    cleared. *)
Theorem extract_exception_propagates {Image} (c : Collab Image) path mp sp keep
    (w : World Image) e :
  is_running w = false → is_Some (fs w !! path) →
  inner_outcome c path mp sp = Raise e →
  (extract_text_from_pdf c path mp sp keep w).2
  = Raise (if is_TimeoutError e
           then Exception "PDF processing timed out. The file might be too large or corrupt."
           else e)
  ∧ (if is_TimeoutError e then "Timeout error: " +:+ str_exn e
     else "Error processing PDF: " +:+ str_exn e)
    ∈ stdout (extract_text_from_pdf c path mp sp keep w).1
  ∧ is_running (extract_text_from_pdf c path mp sp keep w).1 = false.
Proof.
  intros Hidle Hex Hi. split; [|split].
  - rewrite extract_idle_outcome by done. unfold extract_outcome. by rewrite Hi.
  - by apply (extract_idle_error c path mp sp keep w e).
  - by apply extract_idle_released.
Qed.

Lemma extract_exception_propagates_witness :
  (extract_text_from_pdf unreadable_document "book.pdf" (Some 3) 1 false
     idle_world).2 = Raise (Exception "tesseract failed").
Proof.
  apply (extract_exception_propagates unreadable_document "book.pdf" (Some 3) 1
           false idle_world (Exception "tesseract failed"));
    [reflexivity | by eexists | by vm_compute].
Defined.

Lemma extract_probe_fails {Image} (c : Collab Image) path mp sp keep
    (w : World Image) e :
  is_running w = false → is_Some (fs w !! path) →
  upper_bound c path mp sp = Raise e →
  extract_text_from_pdf c path mp sp keep w
  = (mkWorld false (fs w)
       (stdout w ++ ["Extracting text from PDF: " +:+ path; error_line e]),
     Raise (reraised e)).
Proof.
  intros Hidle Hex Hu. rewrite extract_text_from_pdf_unfold by done.
  assert (Hf : frame_before_cleanup c path mp sp keep w
               = mkFrame (mkWorld true (fs w)
                   ((stdout w ++ ["Extracting text from PDF: " +:+ path])
                    ++ [error_line e]))
                   [] []).
  { unfold frame_before_cleanup, try_except, processing, bind.
    rewrite determine_total_pages_frame, Hu.
    unfold on_error, error_line. by destruct (is_TimeoutError e). }
  rewrite Hf. unfold extract_outcome, inner_outcome. rewrite Hu.
  rewrite <- app_assoc. by destruct keep.
Qed.

(** Property X6.  With [max_pages = None], when the probe of page 1 answers
    in time with no image, the call raises ["Could not read the PDF file"],
    logs it as a processing error, touches no file and clears the flag. *)
Theorem extract_unreadable_probe {Image} (c : Collab Image) path start_page
    save_images (w : World Image) :
  is_running w = false → is_Some (fs w !! path) →
  (convert_from_path c path 1 1).1 ≤ 10 →
  (convert_from_path c path 1 1).2 = Ok [] →
  extract_text_from_pdf c path None start_page save_images w
  = (mkWorld false (fs w)
       (stdout w ++ ["Extracting text from PDF: " +:+ path;
                     "Error processing PDF: Could not read the PDF file"]),
     Raise (Exception "Could not read the PDF file")).
Proof.
  intros Hidle Hex Hd Hp.
  apply (extract_probe_fails c path None start_page save_images w
           (Exception "Could not read the PDF file")); try done.
  unfold upper_bound, future_result.
  by rewrite (proj2 (Z.ltb_ge _ _) Hd), Hp.
Qed.

Lemma extract_unreadable_probe_witness :
  (extract_text_from_pdf blank_document "book.pdf" None 1 false idle_world).2
  = Raise (Exception "Could not read the PDF file").
Proof.
  rewrite (extract_unreadable_probe blank_document "book.pdf" 1 false idle_world);
    [reflexivity | reflexivity | by eexists | vm_compute; discriminate
    | reflexivity].
Defined.

(** *** Kept page images *)

Lemma string_length_app (s t : string) :
  String.length (s +:+ t) = (String.length s + String.length t)%nat.
Proof. induction s as [|a s IH]; simpl; [done | by rewrite IH]. Qed.

Lemma string_app_inv_tail (s1 s2 t : string) :
  s1 +:+ t = s2 +:+ t → s1 = s2.
Proof.
  revert s2. induction s1 as [|a s1 IH]; intros [|b s2] H.
  - done.
  - apply (f_equal String.length) in H.
    rewrite !string_length_app in H. simpl in H. lia.
  - apply (f_equal String.length) in H.
    rewrite !string_length_app in H. simpl in H. lia.
  - simpl in H. injection H as -> H. f_equal. by apply IH.
Qed.

Lemma temp_image_path_inj (n m : Z) :
  temp_image_path n = temp_image_path m → n = m.
Proof.
  unfold temp_image_path, str_int. intros H.
  apply String.app_inj in H. apply string_app_inv_tail in H.
  by apply pretty_Z_inj in H.
Qed.

Lemma saved_images_other {Image} (files : gmap string (content Image)) pages p :
  (∀ x, x ∈ pages → p ≠ temp_image_path x.1) →
  saved_images files pages !! p = files !! p.
Proof.
  revert files. induction pages as [|x pages IH]; intros files H; [done|].
  simpl. rewrite IH.
  - apply lookup_insert_ne. intros Heq. by apply (H x (list_elem_of_here _ _)).
  - intros y Hy. apply H. by apply list_elem_of_further.
Qed.

Lemma saved_images_lookup {Image} (files : gmap string (content Image)) pages x :
  StronglySorted Z.lt (map fst pages) → x ∈ pages →
  saved_images files pages !! temp_image_path x.1 = Some (Png x.2).
Proof.
  revert files. induction pages as [|y pages IH]; intros files Hs Hx.
  { by apply elem_of_nil in Hx. }
  simpl in Hs. apply StronglySorted_inv in Hs as [Hs Hf].
  apply elem_of_cons in Hx as [->|Hx]; simpl.
  - rewrite saved_images_other; [apply lookup_insert_eq|].
    intros z Hz Heq. apply temp_image_path_inj in Heq.
    eapply Forall_forall in Hf; [|apply list_elem_of_fmap_2; exact Hz]. lia.
  - by apply IH.
Qed.

Ltac unfold_effects :=
  unfold bind, ret, raise, try_except, try_finally, in_world, lift_outcome,
    print, set_running, os_path_exists, save, remove, write_text,
    extracted_text_append, temp_image_paths_append, temp_image_paths_remove,
    with_frame in *.

Lemma process_page_kept {Image} (c : Collab Image) b ii (f : Frame Image) ts :
  page_texts c b [ii] = Ok ts →
  fs (world (process_page c true b ii f).1)
  = <[temp_image_path (b + Z.of_nat ii.1) := Png ii.2]> (fs (world f)).
Proof.
  unfold process_page. unfold_effects. simpl.
  destruct (image_save c _ _) as [e|]; simpl; [done|].
  by destruct (image_to_string c _) as [text|e].
Qed.

Lemma process_pages_kept {Image} (c : Collab Image) b l (f : Frame Image) ts :
  page_texts c b l = Ok ts →
  fs (world (for_each l (process_page c true b) f).1)
  = saved_images (fs (world f))
      (map (λ ii : nat * Image, (b + Z.of_nat ii.1, ii.2)) l).
Proof.
  revert f ts. induction l as [|ii l IH]; intros f ts H; [done|].
  simpl in H.
  destruct (image_save c _ _) as [e|] eqn:Hs; [done|].
  destruct (image_to_string c _) as [text|e] eqn:Ho; [|done].
  destruct (page_texts c b l) as [ts'|e] eqn:Hl; [|done].
  assert (H1 : page_texts c b [ii] = Ok [text]) by (simpl; by rewrite Hs, Ho).
  pose proof (process_page_kept c b ii f _ H1) as Hk.
  pose proof (process_page_outcome c true b ii f) as Hr. rewrite H1 in Hr.
  simpl for_each. unfold bind.
  destruct (process_page c true b ii f) as [f1 r1]; simpl in *.
  destruct Hr as [-> _]. rewrite (IH f1 ts' eq_refl). by rewrite Hk.
Qed.

Lemma process_batches_kept {Image} (c : Collab Image) path total l
    (f : Frame Image) ts :
  batch_texts c path total l = Ok ts →
  fs (world (for_each l (process_batch c path true total) f).1)
  = saved_images (fs (world f)) (numbered_pages c path total l).
Proof.
  revert f ts. induction l as [|b l IH]; intros f ts H; [done|].
  rewrite numbered_pages_cons. simpl in H.
  destruct (batch_images c path total b) as [imgs|e] eqn:Hi; [|done].
  destruct (page_texts c b (enumerate imgs)) as [ts1|e] eqn:Hp; [|done].
  destruct (batch_texts c path total l) as [ts2|e] eqn:Hl; [|done].
  pose proof (process_batch_outcome c path true total b f) as Hr.
  simpl in Hr. rewrite Hi, Hp in Hr. destruct Hr as [Hr _].
  assert (Hk : fs (world (process_batch c path true total b f).1)
               = saved_images (fs (world f))
                   (map (λ ii : nat * Image, (b + Z.of_nat ii.1, ii.2))
                        (enumerate imgs))).
  { unfold process_batch, batch_images in *. unfold bind at 1. simpl.
    unfold bind, lift_outcome. rewrite Hi.
    destruct imgs as [|i imgs]; [done|].
    by rewrite (process_pages_kept c b _ _ ts1). }
  simpl for_each. unfold bind.
  destruct (process_batch c path true total b f) as [f1 r1]; simpl in *.
  subst r1. rewrite (IH f1 ts2 eq_refl), Hk.
  unfold saved_images. by rewrite foldl_app.
Qed.

Lemma extract_kept {Image} (c : Collab Image) path mp sp total ts
    (w : World Image) :
  is_running w = false → is_Some (fs w !! path) →
  upper_bound c path mp sp = Ok total →
  batch_texts c path total (batch_starts sp total) = Ok ts →
  fs (extract_text_from_pdf c path mp sp true w).1
  = saved_images (fs w) (numbered_pages c path total (batch_starts sp total)).
Proof.
  intros Hidle Hex Hu Hb. rewrite extract_text_from_pdf_unfold by done.
  unfold cleanup, set_running, ret. cbn [fst fs].
  unfold frame_before_cleanup, try_except.
  set (f0 := mkFrame _ [] []).
  pose proof (processing_outcome c path mp sp true f0) as Hp.
  unfold inner_outcome in Hp. rewrite Hu, Hb in Hp. destruct Hp as [Hp _].
  assert (Hk : fs (world (processing c path mp sp true f0).1)
               = saved_images (fs w)
                   (numbered_pages c path total (batch_starts sp total))).
  { unfold processing, bind. rewrite determine_total_pages_frame, Hu.
    unfold in_world. cbn [fst snd print world].
    by rewrite (process_batches_kept c path total _ _ ts Hb). }
  destruct (processing c path mp sp true f0) as [f1 r1]; simpl in *.
  by subst r1.
Qed.

(** Property X7.  After a call with [save_images = True] that goes through
    (same conditions as for claim C7), the image of every processed page is
    in the file [output/temp_page_<N>.png] of its page number, and every
    other path is as before the call. *)
Theorem kept_page_images {Image} (c : Collab Image) (ocr : Image → string)
    path mp sp total (w : World Image) :
  is_running w = false → is_Some (fs w !! path) →
  upper_bound c path mp sp = Ok total →
  (∀ b, b ∈ batch_starts sp total →
     ∃ imgs, batch_images c path total b = Ok imgs
             ∧ Z.of_nat (length imgs) ≤ Z.min (b + BATCH_SIZE - 1) total - b + 1) →
  (∀ x, In x (numbered_pages c path total (batch_starts sp total)) →
     image_save c x.2 (temp_image_path x.1) = None
     ∧ image_to_string c x.2 = Ok (ocr x.2)) →
  (∀ x, x ∈ numbered_pages c path total (batch_starts sp total) →
     fs (extract_text_from_pdf c path mp sp true w).1 !! temp_image_path x.1
     = Some (Png x.2))
  ∧ (∀ p, (∀ x, x ∈ numbered_pages c path total (batch_starts sp total) →
             p ≠ temp_image_path x.1) →
       fs (extract_text_from_pdf c path mp sp true w).1 !! p = fs w !! p).
Proof.
  intros Hidle Hex Hu Hr Ho.
  assert (Hb : batch_texts c path total (batch_starts sp total)
               = Ok (map (λ x, ocr x.2)
                      (numbered_pages c path total (batch_starts sp total)))).
  { apply batch_texts_all; [|done].
    intros b Hb. destruct (Hr b Hb) as (imgs & Hi & _). eauto. }
  rewrite (extract_kept c path mp sp total _ w Hidle Hex Hu Hb).
  destruct (numbered_pages_ascending c path total (batch_starts sp total))
    as [Hs _].
  { apply py_range_spaced. by unfold BATCH_SIZE. }
  { intros b Hb' imgs Himgs. destruct (Hr b Hb') as (imgs' & Hi' & Hl).
    congruence. }
  split.
  - intros x Hx. by apply saved_images_lookup.
  - intros p Hp. by apply saved_images_other.
Qed.

Lemma kept_page_images_witness :
  fs (extract_text_from_pdf (document 12 page_text) "book.pdf" (Some 12) 1 true
        idle_world).1 !! temp_image_path 11 = Some (Png 11).
Proof.
  destruct (kept_page_images (document 12 page_text) page_text "book.pdf"
              (Some 12) 1 12 idle_world) as [H1 _].
  - reflexivity.
  - by eexists.
  - reflexivity.
  - intros b Hb. vm_compute in Hb.
    apply elem_of_cons in Hb as [->|Hb]; [|apply elem_of_cons in Hb as [->|Hb]].
    + eexists. split; [reflexivity | vm_compute; discriminate].
    + eexists. split; [reflexivity | vm_compute; discriminate].
    + by apply elem_of_nil in Hb.
  - intros x Hx. split; reflexivity.
  - apply (H1 (11, 11)). vm_compute. do 10 apply list_elem_of_further.
    apply list_elem_of_here.
Defined.

(** *** The path of the combined file *)

Lemma has_sep_cons a r : has_sep (String a r) = Ascii.eqb a "/" || has_sep r.
Proof.
  unfold has_sep.
  destruct a as [[] [] [] [] [] [] [] []]; cbn; try done;
    try (by destruct (index 0 "/" r)).
  by destruct r.
Qed.

Lemma has_sep_app s t : has_sep (s +:+ t) = has_sep s || has_sep t.
Proof.
  induction s as [|a s IH]; [done|].
  change (String a s +:+ t) with (String a (s +:+ t)).
  rewrite !has_sep_cons, IH. by rewrite orb_assoc.
Qed.

Lemma basename_no_sep p : has_sep (basename p) = false.
Proof.
  unfold basename. induction p as [|a r IH]; [done|]. simpl.
  destruct (has_sep r) eqn:Hr; [done|].
  destruct (Ascii.eqb a "/") eqn:Ha; [done|].
  by rewrite has_sep_cons, Ha, Hr.
Qed.

Lemma substring_no_sep k p : has_sep p = false → has_sep (substring 0 k p) = false.
Proof.
  revert p. induction k as [|k IH]; intros [|a r] H; try done.
  rewrite has_sep_cons in H. apply orb_false_iff in H as [Ha Hr].
  simpl. rewrite has_sep_cons, Ha. by apply IH.
Qed.

Lemma splitext_root_no_sep p : has_sep p = false → has_sep (splitext_root p) = false.
Proof.
  intros H. unfold splitext_root. destruct (rindex_dot p) as [k|]; [|done].
  destruct (all_dots _); [done|]. by apply substring_no_sep.
Qed.

Lemma path_join_output_relative name :
  name ≠ "" → has_sep name = false → path_join_output name = "output/" +:+ name.
Proof.
  intros Hne H. destruct name as [|a r]; [done|].
  rewrite has_sep_cons in H. apply orb_false_iff in H as [Ha _].
  by destruct a as [[] [] [] [] [] [] [] []].
Qed.

(** Property X8.  Whatever [pdf_path] is, the combined file is a direct
    child of [output/]: its path is ["output/"], the stem of the base name
    and ["_output.txt"], with no further separator. *)
Theorem output_path_in_output pdf_path :
  output_path pdf_path
  = "output/" +:+ splitext_root (basename pdf_path) +:+ "_output.txt"
  ∧ has_sep (splitext_root (basename pdf_path) +:+ "_output.txt") = false.
Proof.
  assert (H : has_sep (splitext_root (basename pdf_path) +:+ "_output.txt")
              = false).
  { rewrite has_sep_app, splitext_root_no_sep; [done|]. apply basename_no_sep. }
  split; [|done]. unfold output_path. apply path_join_output_relative; [|done].
  by destruct (splitext_root (basename pdf_path)).
Qed.

Lemma rindex_dot_app s ext :
  rindex_dot ext = None →
  rindex_dot (s +:+ String "." ext) = Some (String.length s).
Proof.
  intros H. induction s as [|a s IH]; simpl.
  - by rewrite H.
  - by rewrite IH.
Qed.

Lemma substring_prefix s t : substring 0 (String.length s) (s +:+ t) = s.
Proof.
  induction s as [|a s IH]; simpl; [by destruct t | by rewrite IH].
Qed.

Lemma basename_of_file dir file :
  has_sep file = false → basename (dir +:+ String "/" file) = file.
Proof.
  intros H. unfold basename. induction dir as [|a d IH]; simpl.
  - by rewrite H.
  - rewrite has_sep_app, has_sep_cons. simpl. rewrite orb_true_r. exact IH.
Qed.

(** Property X9.  For [dir/stem.ext], where [stem] and [ext] have no
    separator, [ext] has no dot and [stem] is not made of dots only, the
    combined file is [output/stem_output.txt]. *)
Theorem output_path_of_file dir stem ext :
  has_sep stem = false → has_sep ext = false →
  all_dots stem = false → rindex_dot ext = None →
  output_path (dir +:+ "/" +:+ stem +:+ "." +:+ ext)
  = "output/" +:+ stem +:+ "_output.txt".
Proof.
  intros Hs He Hd Hx. unfold output_path.
  change (dir +:+ "/" +:+ stem +:+ "." +:+ ext)
    with (dir +:+ String "/" (stem +:+ String "." ext)).
  rewrite basename_of_file.
  2:{ rewrite has_sep_app, has_sep_cons, Hs, He. done. }
  unfold splitext_root. rewrite rindex_dot_app by done.
  rewrite substring_prefix, Hd.
  apply path_join_output_relative.
  - by destruct stem.
  - by rewrite has_sep_app, Hs.
Qed.

Lemma output_path_of_file_witness :
  output_path ("/home/user/scans" +:+ "/" +:+ "book.v2" +:+ "." +:+ "pdf")
  = "output/" +:+ "book.v2" +:+ "_output.txt".
Proof.
  apply (output_path_of_file "/home/user/scans" "book.v2" "pdf"); reflexivity.
Defined.

(** *** What [convert_to_text] touches *)

Lemma string_app_assoc (s t u : string) : (s +:+ t) +:+ u = s +:+ (t +:+ u).
Proof.
  induction s as [|a s IH]; [done|].
  change (String a ((s +:+ t) +:+ u) = String a (s +:+ (t +:+ u))).
  by rewrite IH.
Qed.

Lemma string_app_last (s1 s2 : string) (a b : ascii) :
  s1 +:+ String a "" = s2 +:+ String b "" → a = b.
Proof.
  revert s2. induction s1 as [|c s1 IH]; intros [|d s2] H.
  - by injection H.
  - apply (f_equal String.length) in H.
    rewrite !string_length_app in H. simpl in H. lia.
  - apply (f_equal String.length) in H.
    rewrite !string_length_app in H. simpl in H. lia.
  - change (String c (s1 +:+ String a "") = String d (s2 +:+ String b "")) in H.
    injection H as _ H. by apply (IH s2).
Qed.

Lemma output_path_not_temp pdf_path : ¬ is_temp_image_path (output_path pdf_path).
Proof.
  intros [n Hn]. unfold output_path in Hn.
  rewrite path_join_output_relative in Hn.
  - unfold temp_image_path in Hn.
    change "_output.txt" with ("_output.tx" +:+ "t") in Hn.
    change ".png" with (".pn" +:+ "g") in Hn.
    rewrite <- !string_app_assoc in Hn. by apply string_app_last in Hn.
  - by destruct (splitext_root (basename pdf_path)).
  - rewrite has_sep_app, splitext_root_no_sep; [done|]. apply basename_no_sep.
Qed.

Lemma extract_fs_frame {Image} (c : Collab Image) path mp sp keep
    (w : World Image) p :
  ¬ is_temp_image_path p →
  fs (extract_text_from_pdf c path mp sp keep w).1 !! p = fs w !! p.
Proof.
  intros Hp. destruct (is_running w) eqn:Hrun.
  - by rewrite extract_busy.
  - by apply extract_idle_fs.
Qed.

Lemma get_text_fs_frame {Image} (c : Collab Image) path mp sp (w : World Image) p :
  ¬ is_temp_image_path p →
  fs (get_text_from_pdf c path mp sp w).1 !! p = fs w !! p.
Proof.
  intros Hp. pose proof (extract_fs_frame c path mp sp false w p Hp) as H.
  unfold get_text_from_pdf, bind.
  by destruct (extract_text_from_pdf c path mp sp false w) as [w' [l|e]].
Qed.

Lemma chunk_loop_fs_frame {Image} (c : Collab Image) path max_pages starts
    acc n (w : World Image) p :
  ¬ is_temp_image_path p →
  fs (chunk_loop c path max_pages starts acc n w).1 !! p = fs w !! p.
Proof.
  intros Hp. revert acc n w. induction starts as [|s starts IH]; intros acc n w.
  - done.
  - simpl. unfold bind at 1. simpl. unfold bind.
    match goal with
    | |- context [get_text_from_pdf c path ?mp s ?v] =>
        pose proof (get_text_fs_frame c path mp s v p Hp) as Hg;
        destruct (get_text_from_pdf c path mp s v) as [w1 [chunk|e]]
    end; simpl in *.
    + by rewrite IH.
    + done.
Qed.

(** Property X10.  [convert_to_text] changes no file other than page
    images and the combined file, and when it raises, the combined file is
    as before the call, even if earlier chunks went through. *)
Theorem convert_to_text_footprint {Image} (c : Collab Image) path max_pages
    (w : World Image) :
  (∀ p, ¬ is_temp_image_path p → p ≠ output_path path →
     fs (convert_to_text c path max_pages w).1 !! p = fs w !! p)
  ∧ (∀ e, (convert_to_text c path max_pages w).2 = Raise e →
       fs (convert_to_text c path max_pages w).1 !! output_path path
       = fs w !! output_path path).
Proof.
  destruct max_pages as [mp|]; [|by split].
  unfold convert_to_text, bind.
  pose proof (chunk_loop_fs_frame c path mp (py_range 1 (mp + 1) CHUNK_SIZE)
                [] 1 w) as Hl.
  destruct (chunk_loop c path mp _ [] 1 w) as [w1 [[all_text n]|e]];
    simpl in *.
  - destruct all_text as [|t l]; simpl.
    + split; intros; by apply Hl || discriminate.
    + unfold write_text, ret. destruct (open_write c (output_path path)) as [e|].
      * split.
        -- intros p Hp _. by apply Hl.
        -- intros _ _. apply Hl, output_path_not_temp.
      * split.
        -- intros p Hp Hne. simpl. rewrite lookup_insert_ne by done. by apply Hl.
        -- intros e' He'. discriminate.
  - split.
    + intros p Hp _. by apply Hl.
    + intros _ _. apply Hl, output_path_not_temp.
Qed.

(** *** Calls in a row *)

(** Property X11.  On an idle extractor, for an existing file whose path is
    no page image path, a call of [get_text_from_pdf] leaves the extractor
    idle and the file in place, and a second call with the same arguments
    returns or raises the same as the first. *)
Theorem get_text_twice {Image} (c : Collab Image) path mp sp (w : World Image) :
  is_running w = false → is_Some (fs w !! path) →
  ¬ is_temp_image_path path →
  (get_text_from_pdf c path mp sp (get_text_from_pdf c path mp sp w).1).2
  = (get_text_from_pdf c path mp sp w).2
  ∧ is_running (get_text_from_pdf c path mp sp w).1 = false
  ∧ fs (get_text_from_pdf c path mp sp w).1 !! path = fs w !! path.
Proof.
  intros Hidle Hex Hnt.
  rewrite (get_text_idle c path mp sp w) by done. cbn [fst snd].
  assert (H1 : is_running (extract_text_from_pdf c path mp sp false w).1 = false)
    by by apply extract_idle_released.
  assert (H2 : fs (extract_text_from_pdf c path mp sp false w).1 !! path
               = fs w !! path) by by apply extract_idle_fs.
  split; [|done].
  rewrite get_text_idle; [done | done | by rewrite H2].
Qed.

Lemma get_text_twice_witness :
  (get_text_from_pdf (document 3 page_text) "book.pdf" (Some 3) 1
     (get_text_from_pdf (document 3 page_text) "book.pdf" (Some 3) 1
        idle_world).1).2
  = (get_text_from_pdf (document 3 page_text) "book.pdf" (Some 3) 1
       idle_world).2.
Proof.
  apply (get_text_twice (document 3 page_text) "book.pdf" (Some 3) 1 idle_world).
  - reflexivity.
  - by eexists.
  - intros [n Hn]. vm_compute in Hn. discriminate.
Defined.

(** *** The export of a rendered document *)

Lemma chunk_loop_rendered {Image} (c : Collab Image) (page : Z → Image)
    (text : Z → string) path n max_pages starts :
  renders c path n page →
  (∀ k p, image_save c (page k) p = None) →
  (∀ k, image_to_string c (page k) = Ok (text k)) →
  ¬ is_temp_image_path path →
  Forall (λ s, 1 ≤ s) starts →
  ∀ acc k (w : World Image),
    is_running w = false → is_Some (fs w !! path) →
    ∃ w', chunk_loop c path max_pages starts acc k w
          = (w', Ok (acc ++ map (λ s, str_join blank_line
                                  (map text (pages_between s
                                     (Z.min (s + CHUNK_SIZE - 1) n)))) starts,
                     k + Z.of_nat (length starts)))
          ∧ is_running w' = false ∧ is_Some (fs w' !! path).
Proof.
  intros Hr Hs Ho Hnt. induction 1 as [|s starts Hs1 Hf IH]; intros acc k w Hi He.
  - exists w. simpl. rewrite app_nil_r. repeat split; try done.
    unfold ret. do 3 f_equal. lia.
  - simpl chunk_loop. unfold bind at 1. cbn [print fst snd]. unfold bind.
    match goal with
    | |- context [get_text_from_pdf c path (Some CHUNK_SIZE) s ?v] =>
        destruct (get_text_chunk c page text path n s v Hr Hs Ho Hi He Hnt)
          as (H1 & H2 & H3);
        destruct (get_text_from_pdf c path (Some CHUNK_SIZE) s v) as [w1 r1]
    end.
    simpl in H1, H2, H3. subst r1.
    destruct (IH (acc ++ [str_join blank_line
                            (map text (pages_between (Z.max s 1)
                               (Z.min (s + CHUNK_SIZE - 1) n)))])
                 (k + 1) w1 H2 H3) as (w' & Hw' & Hi' & He').
    exists w'. rewrite Hw'. repeat split; try done.
    rewrite <- app_assoc. simpl. replace (Z.max s 1) with s by lia.
    do 3 f_equal. lia.
Qed.

Lemma convert_rendered {Image} (c : Collab Image) (page : Z → Image)
    (text : Z → string) path n max_pages (w : World Image) :
  renders c path n page →
  (∀ k p, image_save c (page k) p = None) →
  (∀ k, image_to_string c (page k) = Ok (text k)) →
  open_write c (output_path path) = None →
  is_running w = false → is_Some (fs w !! path) → ¬ is_temp_image_path path →
  1 ≤ max_pages →
  ∃ w',
    convert_to_text c path (Some max_pages) w
    = (put_file (output_path path)
         (Txt (str_join blank_line
                 (map (λ s, str_join blank_line
                              (map text (pages_between s
                                           (Z.min (s + CHUNK_SIZE - 1) n))))
                      (py_range 1 (max_pages + 1) CHUNK_SIZE)))) w',
       Ok (str_join blank_line
             (map (λ s, str_join blank_line
                          (map text (pages_between s
                                       (Z.min (s + CHUNK_SIZE - 1) n))))
                  (py_range 1 (max_pages + 1) CHUNK_SIZE))))
    ∧ is_running w' = false.
Proof.
  intros Hr Hs Ho Hw Hidle Hex Hnt Hm.
  destruct (chunk_loop_rendered c page text path n max_pages
              (py_range 1 (max_pages + 1) CHUNK_SIZE) Hr Hs Ho Hnt) with
    (acc := @nil string) (k := 1) (w := w) as (w' & Hl & Hi & He); try done.
  { apply Forall_forall. intros s Hs'.
    apply py_range_bounds in Hs'; [lia | by unfold CHUNK_SIZE]. }
  exists w'. split; [|done].
  unfold convert_to_text, bind. rewrite Hl. cbn [fst snd app].
  rewrite chunk_starts_some by done. cbn [map].
  unfold write_text, ret. by rewrite Hw.
Qed.

(** Property X12.  For a rendered document of [n] pages and
    [max_pages >= 1], [convert_to_text] runs one chunk per start page
    1, 11, 21, ... up to [max_pages]; the chunk starting at [s] is the join of
    the texts of the pages [s .. min(s + 9, n)], a window that [max_pages]
    does not cut; the call returns the join of the chunks, writes it to the
    combined file and leaves the extractor idle. *)
Theorem export_of_rendered_document {Image} (c : Collab Image) (page : Z → Image)
    (text : Z → string) path n max_pages (w : World Image) :
  renders c path n page →
  (∀ k p, image_save c (page k) p = None) →
  (∀ k, image_to_string c (page k) = Ok (text k)) →
  open_write c (output_path path) = None →
  is_running w = false → is_Some (fs w !! path) → ¬ is_temp_image_path path →
  1 ≤ max_pages →
  let chunk start_page :=
    str_join blank_line
      (map text (pages_between start_page
                   (Z.min (start_page + CHUNK_SIZE - 1) n))) in
  let final_text :=
    str_join blank_line
      (map chunk (py_range 1 (max_pages + 1) CHUNK_SIZE)) in
  (convert_to_text c path (Some max_pages) w).2 = Ok final_text
  ∧ fs (convert_to_text c path (Some max_pages) w).1 !! output_path path
    = Some (Txt final_text)
  ∧ is_running (convert_to_text c path (Some max_pages) w).1 = false.
Proof.
  intros Hr Hs Ho Hw Hidle Hex Hnt Hm chunk final_text.
  destruct (convert_rendered c page text path n max_pages w
              Hr Hs Ho Hw Hidle Hex Hnt Hm) as (w' & -> & Hi).
  repeat split; [|done]. unfold put_file. cbn [fst fs]. apply lookup_insert_eq.
Qed.

Lemma export_of_rendered_document_witness :
  (convert_to_text (document 40 page_text) "book.pdf" (Some 12) idle_world).2
  = Ok (str_join blank_line
          (map (λ s, str_join blank_line
                       (map page_text
                          (pages_between s (Z.min (s + CHUNK_SIZE - 1) 40))))
               (py_range 1 (12 + 1) CHUNK_SIZE))).
Proof.
  apply (export_of_rendered_document (document 40 page_text) (λ k, k) page_text
           "book.pdf" 40 12 idle_world).
  - intros first last. exists 1. split; [lia|]. simpl. by rewrite map_id.
  - reflexivity.
  - reflexivity.
  - reflexivity.
  - reflexivity.
  - by eexists.
  - intros [k Hk]. vm_compute in Hk. discriminate.
  - lia.
Defined.

Lemma chunk_starts_rounded max_pages :
  py_range 1 (10 * ((max_pages + 9) / 10) + 1) CHUNK_SIZE
  = py_range 1 (max_pages + 1) CHUNK_SIZE.
Proof.
  unfold py_range, CHUNK_SIZE.
  replace ((10 * ((max_pages + 9) / 10) + 1 - 1 + 10 - 1) / 10)
    with ((max_pages + 1 - 1 + 10 - 1) / 10); [done|].
  replace (10 * ((max_pages + 9) / 10) + 1 - 1 + 10 - 1)
    with (9 + ((max_pages + 9) / 10) * 10) by lia.
  rewrite Z.div_add by lia. replace (9 / 10) with 0 by done.
  replace (max_pages + 1 - 1 + 10 - 1) with (max_pages + 9) by lia. lia.
Qed.

(** Property X13.  For a rendered document, [convert_to_text] returns the
    same text for [max_pages] as for [max_pages] rounded up to the next
    multiple of ten. *)
Theorem export_rounds_up {Image} (c : Collab Image) (page : Z → Image)
    (text : Z → string) path n max_pages (w : World Image) :
  renders c path n page →
  (∀ k p, image_save c (page k) p = None) →
  (∀ k, image_to_string c (page k) = Ok (text k)) →
  open_write c (output_path path) = None →
  is_running w = false → is_Some (fs w !! path) → ¬ is_temp_image_path path →
  1 ≤ max_pages →
  (convert_to_text c path (Some max_pages) w).2
  = (convert_to_text c path (Some (10 * ((max_pages + 9) / 10))) w).2.
Proof.
  intros Hr Hs Ho Hw Hidle Hex Hnt Hm.
  assert (Hm' : 1 ≤ 10 * ((max_pages + 9) / 10)).
  { assert (1 ≤ (max_pages + 9) / 10); [|lia].
    apply Z.div_le_lower_bound; lia. }
  destruct (convert_rendered c page text path n max_pages w
              Hr Hs Ho Hw Hidle Hex Hnt Hm) as (w1 & -> & _).
  destruct (convert_rendered c page text path n _ w
              Hr Hs Ho Hw Hidle Hex Hnt Hm') as (w2 & -> & _).
  cbn [snd]. by rewrite chunk_starts_rounded.
Qed.

Lemma export_rounds_up_witness :
  (convert_to_text (document 40 page_text) "book.pdf" (Some 12) idle_world).2
  = (convert_to_text (document 40 page_text) "book.pdf"
       (Some (10 * ((12 + 9) / 10))) idle_world).2.
Proof.
  apply (export_rounds_up (document 40 page_text) (λ k, k) page_text
           "book.pdf" 40 12 idle_world).
  - intros first last. exists 1. split; [lia|]. simpl. by rewrite map_id.
  - reflexivity.
  - reflexivity.
  - reflexivity.
  - reflexivity.
  - by eexists.
  - intros [k Hk]. vm_compute in Hk. discriminate.
  - lia.
Defined.

(** *** [main] *)

(** Property X14.  When the typed page count is below 1, [main] prints
    both prompts and the completion message and returns normally, with every
    file as it was: nothing is extracted or written. *)
Theorem main_without_pages {Image} (c : Collab Image) (int : string → outcome Z)
    path_answer pages_answer max_pages (w : World Image) :
  int pages_answer = Ok max_pages → max_pages < 1 →
  main c int path_answer pages_answer w
  = (mkWorld false (fs w)
       (stdout w ++ ["Enter the path to the PDF file: ";
                     "Enter the maximum number of pages to process: ";
                     "All done. Thank you for using Shaykh Salih Technologies"]),
     Ok tt).
Proof.
  intros Hint Hm. unfold main, input, new_extractor.
  unfold bind at 1. unfold bind at 1. cbn [print ret fst snd].
  unfold bind at 1. unfold bind at 1. cbn [print ret fst snd].
  unfold bind at 1. unfold lift_outcome at 1. rewrite Hint.
  unfold bind at 1. cbn [set_running fst snd].
  unfold bind. rewrite convert_to_text_no_pages by done.
  unfold print. cbn [is_running fs stdout]. by rewrite <- !app_assoc.
Qed.

Lemma main_without_pages_witness :
  (main (document 3 page_text) (λ _, Ok 0) "book.pdf" "0" idle_world).2 = Ok tt.
Proof.
  by rewrite (main_without_pages (document 3 page_text) (λ _, Ok 0)
                "book.pdf" "0" 0 idle_world eq_refl ltac:(lia)).
Defined.

(** Property X15.  [main] stops at the first exception without the
    completion message and without touching a file: when the typed page count
    is no integer, before an extractor exists; when the count is at least 1
    and the path is no file, with [FileNotFoundError] from the first chunk. *)
Theorem main_stops_on_error {Image} (c : Collab Image) (int : string → outcome Z)
    path_answer pages_answer (w : World Image) :
  (∀ e, int pages_answer = Raise e →
     main c int path_answer pages_answer w
     = (mkWorld (is_running w) (fs w)
          (stdout w ++ ["Enter the path to the PDF file: ";
                        "Enter the maximum number of pages to process: "]),
        Raise e))
  ∧ (∀ max_pages, int pages_answer = Ok max_pages → 1 ≤ max_pages →
       fs w !! path_answer = None →
       main c int path_answer pages_answer w
       = (mkWorld false (fs w)
            (stdout w ++ ["Enter the path to the PDF file: ";
                          "Enter the maximum number of pages to process: ";
                          first_chunk_line max_pages;
                          "Extracting text from PDF: " +:+ path_answer]),
          Raise (FileNotFoundError ("PDF file not found: " +:+ path_answer)))).
Proof.
  split.
  - intros e Hint. unfold main, input.
    unfold bind at 1. unfold bind at 1. cbn [print ret fst snd].
    unfold bind at 1. unfold bind at 1. cbn [print ret fst snd].
    unfold bind at 1. unfold lift_outcome at 1. rewrite Hint.
    cbn [is_running fs stdout]. by rewrite <- !app_assoc.
  - intros max_pages Hint Hm Hex. unfold main, input, new_extractor.
    unfold bind at 1. unfold bind at 1. cbn [print ret fst snd].
    unfold bind at 1. unfold bind at 1. cbn [print ret fst snd].
    unfold bind at 1. unfold lift_outcome at 1. rewrite Hint.
    unfold bind at 1. cbn [set_running fst snd].
    unfold bind.
    match goal with
    | |- context [convert_to_text c path_answer (Some max_pages) ?v] =>
        pose proof (get_text_missing c path_answer (Some CHUNK_SIZE) 1
                      (print (first_chunk_line max_pages) v).1 eq_refl Hex) as Hg;
        rewrite (convert_to_text_first_raises c path_answer max_pages v _ _ Hm Hg)
    end.
    cbn [print fst is_running fs stdout]. by rewrite <- !app_assoc.
Qed.

Lemma main_stops_on_error_witness :
  (main (document 3 page_text) (λ _, Ok 3) "lost.pdf" "3" idle_world).2
  = Raise (FileNotFoundError "PDF file not found: lost.pdf").
Proof.
  by rewrite (proj2 (main_stops_on_error (document 3 page_text) (λ _, Ok 3)
                       "lost.pdf" "3" idle_world) 3 eq_refl ltac:(lia) eq_refl).
Defined.
